(** * LinkedIn Ghostwriter: the pipeline of [app.py]

    A shallow embedding of [scrape_google_news], [construct_viral_prompt],
    [call_together_api] and [parse_generated_content], and of the handling
    of a submitted form in [main], together with the small part of Python's
    [str], [re], [int] and [sorted] behaviour they rely on.

    Python text ([str]) is a sequence of Unicode code points; it is modelled
    as [list N].  A Python [dict] with [str] keys is a [gmap (list N) _];
    the order of insertion, which the map does not keep, is given by
    [posts_keys] where [main] sorts the keys.  Exceptions are values of
    [exception], carried by the [result] monad. *)

From stdpp Require Import base numbers option list gmap strings sorting pretty.

Local Open Scope N_scope.

(** ** Text *)

Abbreviation str := (list N).

(** Literals of this file are written as Rocq strings, which are UTF-8 byte
    sequences; [text] decodes them into code points. *)
Fixpoint utf8_decode (need : nat) (acc : N) (bs : list N) : str :=
  match bs with
  | [] => []
  | b :: bs' =>
    match need with
    | O =>
      if b <? 128 then b :: utf8_decode 0 0 bs'
      else if b <? 224 then utf8_decode 1 (N.land b 31) bs'
      else if b <? 240 then utf8_decode 2 (N.land b 15) bs'
      else utf8_decode 3 (N.land b 7) bs'
    | S O => (acc * 64 + N.land b 63) :: utf8_decode 0 0 bs'
    | S n => utf8_decode n (acc * 64 + N.land b 63) bs'
    end
  end.

Definition text (s : string) : str :=
  utf8_decode 0 0 (map Ascii.N_of_ascii (String.list_ascii_of_string s)).

(** Literals are evaluated on demand, not by simplification. *)
Opaque text.

Definition NL : str := [10].

(** [str.isspace] for one character, which is also what [\s] tests in a
    [str] pattern: the code points whose bidirectional class is WS, B or S,
    or whose category is Zs. *)
Definition py_isspace (c : N) : bool :=
  ((9 <=? c) && (c <=? 13)) || ((28 <=? c) && (c <=? 32))
  || (c =? 133) || (c =? 160) || (c =? 5760)
  || ((8192 <=? c) && (c <=? 8202))
  || (c =? 8232) || (c =? 8233) || (c =? 8239) || (c =? 8287) || (c =? 12288).

(** [s[a:b]] for [0 <= a] and [0 <= b]. *)
Definition slice {A} (s : list A) (a b : nat) : list A :=
  take (b - a) (drop a s).

(** [items[:n]] for a Python [int] [n]: a negative bound counts from the end. *)
Definition slice_to {A} (s : list A) (n : Z) : list A :=
  if (0 <=? n)%Z then take (Z.to_nat n) s
  else take (length s - Z.to_nat (- n)) s.

(** [str.lstrip], [str.rstrip] and [str.strip] without argument. *)
Fixpoint py_lstrip (s : str) : str :=
  match s with
  | c :: s' => if py_isspace c then py_lstrip s' else s
  | [] => []
  end.

Fixpoint py_rstrip (s : str) : str :=
  match s with
  | c :: s' =>
    match py_rstrip s' with
    | [] => if py_isspace c then [] else [c]
    | r => c :: r
    end
  | [] => []
  end.

Definition py_strip (s : str) : str := py_rstrip (py_lstrip s).

(** ** Exceptions *)

Inductive exception_class :=
| NewsScraperError
| TogetherAPIError
| RequestException
| AttributeError
| IndexError
| OtherException (name : string).

(** An exception object: its class and [str(e)]. Every class above derives
    from [Exception]; what does not (KeyboardInterrupt, SystemExit) is not
    an error of the program and is left out. *)
Record exception := Exn { exn_class : exception_class; exn_str : str }.

Inductive result (A : Type) :=
| Ok (a : A)
| Raise (e : exception).
Arguments Ok {A} a.
Arguments Raise {A} e.

#[global] Instance result_ret : MRet result := λ A a, Ok a.
#[global] Instance result_bind : MBind result := λ A B f r,
  match r with
  | Ok a => f a
  | Raise e => Raise e
  end.

(** [try: body except Exception as e: handler(e)]. *)
Definition try_except {A} (body : result A) (handler : exception → result A)
  : result A :=
  match body with
  | Ok a => Ok a
  | Raise e => handler e
  end.

(** [l[i]] for [0 <= i]. *)
Definition index {A} (l : list A) (i : nat) : result A :=
  match l !! i with
  | Some x => Ok x
  | None => Raise (Exn IndexError (text "list index out of range"))
  end.

(** ** The [re] module

    Only what the program's four patterns need: single characters, greedy
    repetition of a single character class, one capture group, and the
    anchors [^] and [$]; matching is by backtracking, as in [sre]. *)

Inductive charset :=
| Literal (c : N)        (* a literal character *)
| Not_literal (c : N)    (* [^c] *)
| Category_digit         (* \d *)
| Category_space.        (* \s *)

Inductive op :=
| Char (cs : charset)                 (* one character of the class *)
| Max_repeat (lo : nat) (cs : charset) (* greedy, at least [lo] times *)
| Mark (k : nat)                      (* group [g] opens at mark [2g-2], closes at [2g-1] *)
| At_beginning                        (* ^ *)
| At_end.                             (* $ *)

Record re_match := Match {
  m_start : nat;                  (* match.start() *)
  m_end : nat;                    (* match.end() *)
  m_marks : list (nat * nat)      (* mark number, position; newest first *)
}.

(** Simple lower-casing of ASCII letters. [re.IGNORECASE] compares through
    the Unicode simple lower-case map; the cased literals of this program
    are D, a and y, and no code point other than the ASCII letter itself
    lower-cases to d, a or y. *)
Definition ascii_lower (c : N) : N :=
  if (65 <=? c) && (c <=? 90) then c + 32 else c.

Fixpoint mark_lookup (k : nat) (marks : list (nat * nat)) : option nat :=
  match marks with
  | (k', p) :: marks' => if Nat.eqb k k' then Some p else mark_lookup k marks'
  | [] => None
  end.

Section Regex.

(** Unicode category Nd outside ASCII. Which code points it holds depends on
    the Unicode version of the interpreter, so it is left open. *)
Variable category_Nd : N → bool.

(** The test behind [\d] in a [str] pattern. *)
Definition py_isdecimal (c : N) : bool :=
  if c <? 128 then (48 <=? c) && (c <=? 57) else category_Nd c.

(** [ignorecase] is the flag [re.IGNORECASE]. *)
Variable ignorecase : bool.

Definition charset_matches (cs : charset) (c : N) : bool :=
  match cs with
  | Literal l =>
    if ignorecase then ascii_lower c =? ascii_lower l else c =? l
  | Not_literal l =>
    negb (if ignorecase then ascii_lower c =? ascii_lower l else c =? l)
  | Category_digit => py_isdecimal c
  | Category_space => py_isspace c
  end.

(** Greedy repetition: take one more character while the class allows it,
    and on failure of what follows give the characters back one at a time. *)
Fixpoint repeat_max {R} (cs : charset) (lo : nat)
    (k : nat → str → option R) (count pos : nat) (s : str) : option R :=
  match s with
  | c :: s' =>
    if charset_matches cs c then
      match repeat_max cs lo k (S count) (S pos) s' with
      | Some r => Some r
      | None => if (lo <=? count)%nat then k pos s else None
      end
    else if (lo <=? count)%nat then k pos s else None
  | [] => if (lo <=? count)%nat then k pos s else None
  end.

(** The length of the longest run of characters of [cs] at the start of
    [s]; used to say what a repetition takes. *)
Fixpoint run_length (cs : charset) (s : str) : nat :=
  match s with
  | c :: s' => if charset_matches cs c then S (run_length cs s') else 0
  | [] => 0
  end.

(** Match [ops] at position [pos], where [s] is the subject from [pos] on.
    Returns the end position and the marks. *)
Fixpoint sre_match (ops : list op) (marks : list (nat * nat))
    (pos : nat) (s : str) : option (nat * list (nat * nat)) :=
  match ops with
  | [] => Some (pos, marks)
  | Char cs :: ops' =>
    match s with
    | c :: s' =>
      if charset_matches cs c then sre_match ops' marks (S pos) s' else None
    | [] => None
    end
  | Max_repeat lo cs :: ops' => repeat_max cs lo (sre_match ops' marks) 0 pos s
  | Mark k :: ops' => sre_match ops' ((k, pos) :: marks) pos s
  | At_beginning :: ops' =>
    if Nat.eqb pos 0 then sre_match ops' marks pos s else None
  | At_end :: ops' =>
    match s with
    | [] => sre_match ops' marks pos s
    | [c] => if c =? 10 then sre_match ops' marks pos s else None
    | _ => None
    end
  end.

(** The scanner behind [finditer] and [sub]: try each position from left to
    right, and after a match resume at its end. [skip] counts the characters
    of the last match that are still to be passed over. None of the
    program's patterns matches the empty string, so the rule [re] has for
    empty matches is left out: after one, the scanner moves on by one
    character. *)
Fixpoint scan (ops : list op) (skip pos : nat) (s : str) : list re_match :=
  match skip with
  | S skip' =>
    match s with
    | _ :: s' => scan ops skip' (S pos) s'
    | [] => []
    end
  | O =>
    match sre_match ops [] pos s with
    | Some (e, marks) =>
      Match pos e marks ::
      match s with
      | _ :: s' => scan ops (e - pos - 1) (S pos) s'
      | [] => []
      end
    | None =>
      match s with
      | _ :: s' => scan ops 0 (S pos) s'
      | [] => []
      end
    end
  end.

(** [list(re.finditer(pattern, content, flags))]. *)
Definition finditer (ops : list op) (content : str) : list re_match :=
  scan ops 0 0 content.

(** [match.group(g)] for [1 <= g]; [IndexError] when the pattern has no
    such group. In the patterns of this program a group always takes part
    in the match. *)
Definition group (content : str) (m : re_match) (g : nat) : result str :=
  match mark_lookup (2 * g - 2) (m_marks m), mark_lookup (2 * g - 1) (m_marks m) with
  | Some a, Some b => Ok (slice content a b)
  | _, _ => Raise (Exn IndexError (text "no such group"))
  end.

(** [re.sub(pattern, repl, content)]: the text between the matches, with
    [repl] in place of each match. *)
Fixpoint sub_matches (repl content : str) (last : nat) (ms : list re_match)
  : str :=
  match ms with
  | [] => drop last content
  | m :: ms' =>
    slice content last (m_start m) ++ repl ++ sub_matches repl content (m_end m) ms'
  end.

Definition re_sub (ops : list op) (repl content : str) : str :=
  sub_matches repl content 0 (finditer ops content).

End Regex.

(** ** The program's patterns *)

(** [r'\s+'] *)
Definition whitespace_pattern : list op := [Max_repeat 1 Category_space].

(** [r'\*\*Day (\d+):[^*]*\*\*'] *)
Definition day_pattern : list op :=
  [ Char (Literal 42); Char (Literal 42);
    Char (Literal 68); Char (Literal 97); Char (Literal 121);
    Char (Literal 32);
    Mark 0; Max_repeat 1 Category_digit; Mark 1;
    Char (Literal 58);
    Max_repeat 0 (Not_literal 42);
    Char (Literal 42); Char (Literal 42) ].

(** [r'^\n+'] *)
Definition leading_newlines_pattern : list op :=
  [At_beginning; Max_repeat 1 (Literal 10)].

(** [r'\n+$'] *)
Definition trailing_newlines_pattern : list op :=
  [Max_repeat 1 (Literal 10); At_end].

(** ** [construct_viral_prompt]

    The five constant pieces of the f-string, in order; the four fields go
    between them. *)

Definition template_head : str := text
"You are an elite LinkedIn ghostwriter and viral content strategist with expertise in creating thought leadership content that achieves maximum engagement, shares, and industry influence. Your mission is to craft a strategic 7-day content calendar that positions the user as an authoritative voice while driving exceptional viral performance.

TARGET PROFILE ANALYSIS:
Industry: ".

Definition template_bio : str := text
"
Professional Bio: ".

Definition template_voice : str := text
"
Voice Reference (Recent Post): ".

Definition template_news : str := text
"

CURRENT MARKET INTELLIGENCE:
".

Definition template_tail : str := text
"

VIRAL CONTENT STRATEGY REQUIREMENTS:

🎯 ENGAGEMENT OPTIMIZATION:
- Each post must include a compelling hook within the first 2 lines
- Use psychological triggers: curiosity gaps, social proof, controversy, urgency
- Incorporate pattern interrupts and unexpected insights
- Design posts for maximum shareability and comment generation

📊 CONTENT PERFORMANCE FRAMEWORK:
- Post length: 150-300 words (optimized for LinkedIn algorithm)
- Include 3-5 strategic hashtags (mix of trending and niche)
- End with strong call-to-action that encourages engagement
- Use formatting that enhances readability (line breaks, emojis, bullets)

🔥 VIRAL CONTENT TYPES (Use variety across 7 days):
1. **Controversial Take**: Challenge conventional industry wisdom
2. **Behind-the-Scenes**: Share exclusive insider perspectives
3. **Prediction Post**: Make bold, data-backed future predictions
4. **Failure Story**: Transform personal setbacks into teachable moments
5. **Industry Myth-Buster**: Debunk common misconceptions with evidence
6. **Trend Analysis**: Connect current events to industry implications
7. **Contrarian Insight**: Present unpopular but valuable perspectives

💡 PSYCHOLOGICAL ENGAGEMENT TACTICS:
- Open loops and curiosity gaps
- Social proof and authority positioning
- Emotional storytelling with logical conclusions
- Surprise elements and unexpected twists
- Interactive elements encouraging responses

🎨 CONTENT ARCHITECTURE:
- Hook (attention-grabbing opening)
- Context (relevant background/story)
- Core insight (valuable takeaway)
- Evidence (data, examples, proof points)
- Call-to-action (engagement driver)

VOICE MATCHING PROTOCOL:
Analyze the provided recent post and bio to maintain consistent:
- Tone and personality
- Industry expertise level
- Communication style
- Professional positioning
- Authentic voice patterns

FORMAT REQUIREMENTS:
**Day 1: [Compelling Title with Emotional Hook]**
[Post content with strategic formatting]
[3-5 relevant hashtags]
[Strong call-to-action]

**Day 2: [Next Compelling Title]**
[Post content with strategic formatting]
[3-5 relevant hashtags]
[Strong call-to-action]

[Continue for all 7 days]

VIRAL SUCCESS METRICS TO OPTIMIZE FOR:
- Comments: Design posts that naturally generate discussion
- Shares: Create content worth sharing with networks
- Saves: Provide actionable insights people want to reference
- Profile visits: Position expertise to drive connection requests
- Industry influence: Establish thought leadership authority

EXECUTION STANDARDS:
- Every post must provide genuine value to the reader
- Maintain professional credibility while being engaging
- Ensure content is original and not recycled industry clichés
- Balance personal authenticity with strategic viral elements
- Create content that reflects expertise while being accessible

Generate 7 strategically different posts that collectively build a powerful thought leadership narrative while maximizing viral potential across diverse content formats and engagement strategies.".

(** ["\n".join(parts)] *)
Fixpoint join_lines (parts : list str) : str :=
  match parts with
  | [] => []
  | [p] => p
  | p :: parts' => p ++ NL ++ join_lines parts'
  end.

Definition construct_viral_prompt (bio recent_post industry : str)
    (headlines : list str) : str :=
  let headlines_text :=
    join_lines (map (λ headline, text "• " ++ headline) headlines) in
  template_head ++ industry ++ template_bio ++ bio ++ template_voice
    ++ recent_post ++ template_news ++ headlines_text ++ template_tail.

(** ** [call_together_api] *)

(** One element of [response.choices]; [None] is a message whose [content]
    is [None]. *)
Record choice := Choice { message_content : option str }.

(** The completion object; [choices] is [None] or a list. *)
Record chat_response := Response { choices : option (list choice) }.

(** [create api_key model prompt] stands for building the client and the one
    call of [client.chat.completions.create] with the fixed sampling
    arguments: it returns the completion or raises. *)
Definition call_together_api
    (create : str → str → str → result chat_response)
    (prompt api_key model : str) : result str :=
  try_except
    (response ← create api_key model prompt;
     match choices response with
     | Some (first :: _) =>
       match message_content first with
       | Some content => Ok (py_strip content)
       | None =>
         Raise (Exn AttributeError
                  (text "'NoneType' object has no attribute 'strip'"))
       end
     | _ => Raise (Exn TogetherAPIError (text "No content generated by API"))
     end)
    (λ e, Raise (Exn TogetherAPIError (text "API request failed: " ++ exn_str e))).

Section Program.

Variable category_Nd : N → bool.

(** ** [scrape_google_news] *)

(** One [<item>] of the feed: what [item.find('title')] gives, [None] when
    the item has no title element, else the element's [.text]. *)
Record item := Item { item_title : option str }.

(** [re.sub(r'\s+', ' ', title.text.strip())] *)
Definition clean_title (title_text : str) : str :=
  re_sub category_Nd false whitespace_pattern (text " ") (py_strip title_text).

(** The loop over [items[:max_headlines]]; [title and title.text] holds
    when the element exists and its text is not the empty string. *)
Fixpoint collect_headlines (items : list item) (headlines : list str)
  : list str :=
  match items with
  | [] => headlines
  | it :: items' =>
    match item_title it with
    | Some title_text =>
      if bool_decide (title_text ≠ []) then
        collect_headlines items' (headlines ++ [clean_title title_text])
      else collect_headlines items' headlines
    | None => collect_headlines items' headlines
    end
  end.

(** [get_feed search_query] stands for the request and the XML parse: it
    returns the feed's items in document order, or raises. *)
Definition scrape_google_news (get_feed : str → result (list item))
    (industry_keyword : str) (max_headlines : Z) : result (list str) :=
  let search_query := industry_keyword ++ text " industry news" in
  try_except
    (items ← get_feed search_query;
     Ok (collect_headlines (slice_to items max_headlines) []))
    (λ e,
      match exn_class e with
      | RequestException =>
        Raise (Exn NewsScraperError (text "Failed to fetch news: " ++ exn_str e))
      | _ =>
        Raise (Exn NewsScraperError
                 (text "Failed to parse news feed: " ++ exn_str e))
      end).

(** ** [parse_generated_content] *)

(** The body of the [for] loop, for [i] and [match] = [m]. *)
Definition parse_step (content : str) (day_matches : list re_match)
    (i : nat) (m : re_match) (posts : gmap str str) : result (gmap str str) :=
  day_num ← group content m 1;
  let start_pos := m_end m in
  end_pos ←
    (if (i + 1 <? length day_matches)%nat
     then m' ← index day_matches (i + 1); Ok (m_start m')
     else Ok (length content));
  let post_content := py_strip (slice content start_pos end_pos) in
  let post_content :=
    re_sub category_Nd false leading_newlines_pattern [] post_content in
  let post_content :=
    re_sub category_Nd false trailing_newlines_pattern [] post_content in
  Ok (<[day_num := post_content]> posts).

(** [for i, match in enumerate(day_matches)], from index [i] on. *)
Fixpoint parse_loop (content : str) (day_matches : list re_match)
    (i : nat) (rest : list re_match) (posts : gmap str str)
  : result (gmap str str) :=
  match rest with
  | [] => Ok posts
  | m :: rest' =>
    posts' ← parse_step content day_matches i m posts;
    parse_loop content day_matches (S i) rest' posts'
  end.

Definition parse_generated_content (content : str) : result (gmap str str) :=
  let posts := ∅ in
  let day_matches := finditer category_Nd true day_pattern content in
  parse_loop content day_matches 0 day_matches posts.

End Program.

(** ** [int] and [sorted]

    What [int] takes from the interpreter: the value of a decimal digit
    outside ASCII; the limit [sys.get_int_max_str_digits()] on the number
    of digits of a string to convert, 4300 unless it is set otherwise
    ([None] for an interpreter that has no such limit, or has it set to 0;
    a limit is never under 640); and [str(e)] of the [ValueError] that
    [int] raises for a string of [n] digits, more than the limit. *)
Record interpreter := Interpreter {
  decimal_value : N → N;
  int_max_str_digits : option nat;
  int_limit_error : nat → str
}.

Definition digit_value (py : interpreter) (c : N) : N :=
  if c <? 128 then c - 48 else decimal_value py c.

(** The number a string of decimal digits stands for. *)
Definition int_value (py : interpreter) (s : str) : N :=
  foldl (λ n c, 10 * n + digit_value py c) 0 s.

(** [int(s)] for [s] made of decimal digits, at least one, as the keys of
    the parser's mapping are. *)
Definition py_int (py : interpreter) (s : str) : result N :=
  match int_max_str_digits py with
  | Some limit =>
    if (limit <? length s)%nat
    then Raise (Exn (OtherException "ValueError")
                  (int_limit_error py (length s)))
    else Ok (int_value py s)
  | None => Ok (int_value py s)
  end.

(** [sorted(keys, key=int)]: [int] is applied to every element, in order,
    before any two are compared; the sort is stable, so an element goes
    after those already placed that are not greater. *)
Fixpoint with_int_keys (py : interpreter) (keys : list str)
  : result (list (N * str)) :=
  match keys with
  | [] => Ok []
  | key :: keys' =>
    n ← py_int py key;
    rest ← with_int_keys py keys';
    Ok ((n, key) :: rest)
  end.

Fixpoint insert_by_key (x : N * str) (sorted : list (N * str))
  : list (N * str) :=
  match sorted with
  | [] => [x]
  | y :: sorted' =>
    if y.1 <=? x.1 then y :: insert_by_key x sorted' else x :: sorted
  end.

Definition sorted_by_int (py : interpreter) (keys : list str)
  : result (list str) :=
  pairs ← with_int_keys py keys;
  Ok ((foldl (λ sorted x, insert_by_key x sorted) [] pairs).*2).

(** ** [main]: the handling of a submitted form

    The widgets that only show something are left out: the progress bar,
    the status line, the metrics and the fixed advice. What is kept is what
    the function computes, the tabs it fills and the branch it ends in. *)

(** One tab of the calendar: its name, the key shown in its heading and the
    post shown under it. *)
Record tab := Tab { tab_name : str; tab_day_num : str; tab_content : str }.

(** Where [main] ends once the form is submitted. *)
Inductive screen :=
| Missing_fields
    (* st.error("Please fill in all required fields ...") and return *)
| Calendar (headlines : list str) (posts : gmap str str) (tabs : list tab)
    (* if posts: the tabs of the calendar *)
| Raw_output (headlines : list str) (generated_content : str)
    (* else: the warning and the raw text *)
| Scraping_issue (message : str)
    (* except NewsScraperError: st.error(message) *)
| Generation_failed (message : str)
    (* except TogetherAPIError: st.error(message) *)
| Unexpected_error (message : str).
    (* except Exception: st.error(message) *)

(** The three headlines put in place of an empty list. *)
Definition fallback_headlines (industry : str) : list str :=
  [ text "Latest innovations in " ++ industry;
    text "Market trends shaping " ++ industry;
    text "Leadership challenges in " ++ industry ].

(** [[f"Day {i}" for i in range(1, min(8, len(posts) + 1))]]: at most seven
    names; [i] is under 8, so [str(i)] is one digit. *)
Definition tab_names (posts : gmap str str) : list str :=
  (λ i, text "Day " ++ [48 + N.of_nat i])
    <$> seq 1 (Nat.min 8 (size posts + 1) - 1).

(** [posts[key]]. *)
Definition getitem (posts : gmap str str) (key : str) : result str :=
  match posts !! key with
  | Some post => Ok post
  | None => Raise (Exn (OtherException "KeyError") (text "'" ++ key ++ text "'"))
  end.

(** [for day_num, tab in zip(..., tabs)]: what is put in each tab. *)
Fixpoint fill_tabs (posts : gmap str str) (pairs : list (str * str))
  : result (list tab) :=
  match pairs with
  | [] => Ok []
  | (day_num, name) :: pairs' =>
    post ← getitem posts day_num;
    tabs ← fill_tabs posts pairs';
    Ok (Tab name day_num post :: tabs)
  end.

(** The branch [if posts:], where [keys] is [list(posts.keys())]. *)
Definition calendar_tabs (py : interpreter) (keys : list str)
    (posts : gmap str str) : result (list tab) :=
  let names := tab_names posts in
  day_nums ← sorted_by_int py keys;
  fill_tabs posts (zip day_nums names).

Section Main.

Variable category_Nd : N → bool.
Variable py : interpreter.

(** The world: the news feed and the generation endpoint. *)
Variable get_feed : str → result (list item).
Variable create : str → str → str → result chat_response.

(** [list(posts.keys())] for [posts = parse_generated_content(content)]: a
    dict lists its keys in the order in which they were first stored, and
    storing under a key it already has leaves the key in its place. *)
Definition posts_keys (content : str) : list str :=
  foldl (λ keys m,
           match group content m 1 with
           | Ok day_num =>
             if bool_decide (day_num ∈ keys) then keys else keys ++ [day_num]
           | Raise _ => keys
           end)
        [] (finditer category_Nd true day_pattern content).

(** The [try] block. *)
Definition main_try (bio recent_post industry api_key model : str)
    (max_headlines : Z) : result screen :=
  headlines ← scrape_google_news category_Nd get_feed industry max_headlines;
  let headlines :=
    if bool_decide (headlines = []) then fallback_headlines industry
    else headlines in
  let prompt := construct_viral_prompt bio recent_post industry headlines in
  generated_content ← call_together_api create prompt api_key model;
  posts ← parse_generated_content category_Nd generated_content;
  if bool_decide (posts ≠ ∅)
  then
    tabs ← calendar_tabs py (posts_keys generated_content) posts;
    Ok (Calendar headlines posts tabs)
  else Ok (Raw_output headlines generated_content).

(** [if submitted:], with the three [except] clauses in their order. *)
Definition main (bio recent_post industry api_key model : str)
    (max_headlines : Z) : screen :=
  if negb (forallb (λ field, bool_decide (field ≠ []))
             [bio; recent_post; industry; api_key])
  then Missing_fields
  else
    match main_try bio recent_post industry api_key model max_headlines with
    | Ok shown => shown
    | Raise e =>
      match exn_class e with
      | NewsScraperError =>
        Scraping_issue
          (text "📰 News scraping encountered an issue: " ++ exn_str e)
      | TogetherAPIError =>
        Generation_failed (text "🤖 Content generation failed: " ++ exn_str e)
      | _ =>
        Unexpected_error (text "⚠️ An unexpected error occurred: " ++ exn_str e)
      end
    end.

End Main.

(** The bulleted list of [construct_viral_prompt], by itself. *)
Definition headlines_text (headlines : list str) : str :=
  join_lines (map (λ headline, text "• " ++ headline) headlines).

(** [m] moved [k] characters to the right. *)
Definition shift_match (k : nat) (m : re_match) : re_match :=
  Match (k + m_start m) (k + m_end m)
        (map (λ gp, (gp.1, k + gp.2)%nat) (m_marks m)).

(** ** Documents in the format the prompt asks for

    Used to state what the parser does with a well-formed reply: an entry
    is the digits, the title and the body of one day. *)

Definition render_entry (entry : str * str * str) : str :=
  let '(digits, title, body) := entry in
  text "**Day " ++ digits ++ text ":" ++ title ++ text "**" ++ body.

Definition render_calendar (entries : list (str * str * str)) : str :=
  concat (render_entry <$> entries).

(** The digits are decimal digits, at least one, and neither the title nor
    the body holds an asterisk. *)
Definition well_formed_entry (nd : N → bool) (entry : str * str * str) : Prop :=
  let '(digits, title, body) := entry in
  digits ≠ []
  ∧ Forall (λ c, py_isdecimal nd c = true) digits
  ∧ Forall (λ c, c ≠ 42) title
  ∧ Forall (λ c, c ≠ 42) body.

(** The mapping the entries stand for: each key with its stripped body, a
    later entry replacing an earlier one with the same digits. *)
Definition calendar_of (entries : list (str * str * str)) : gmap str str :=
  foldl (λ posts entry, <[entry.1.1 := py_strip entry.2]> posts) ∅ entries.

(** ** Notions used to state the properties *)

(** The outcome of trying [ops] at position [q] of [content]. *)
Definition match_at (nd : N → bool) (ic : bool) (ops : list op)
    (content : str) (q : nat) : option (nat * list (nat * nat)) :=
  sre_match nd ic ops [] q (drop q content).

(** [scanned content pos ms]: [ms] are the leftmost, non-overlapping matches
    of [ops] in [content] from position [pos] on, in order. *)
Inductive scanned (nd : N → bool) (ic : bool) (ops : list op) (content : str)
  : nat → list re_match → Prop :=
| scanned_nil pos :
    (∀ q, (pos ≤ q ≤ length content)%nat → match_at nd ic ops content q = None) →
    scanned nd ic ops content pos []
| scanned_cons pos m ms :
    (pos ≤ m_start m)%nat →
    (∀ q, (pos ≤ q < m_start m)%nat → match_at nd ic ops content q = None) →
    match_at nd ic ops content (m_start m) = Some (m_end m, m_marks m) →
    (m_start m < m_end m ≤ length content)%nat →
    scanned nd ic ops content (m_end m) ms →
    scanned nd ic ops content pos (m :: ms).

(** Where the text that follows the [i]-th match stops: at the start of the
    next match, or at the end of the text. *)
Definition next_start (content : str) (ms : list re_match) (i : nat) : nat :=
  match ms !! S i with
  | Some m' => m_start m'
  | None => length content
  end.

(** A day marker read directly off the text: [**], the word Day in any
    case, a space, a longest run of [n >= 1] decimal digits, a colon, a
    longest run of [t] characters other than [*], and [**]. Gives [(n, t)]. *)
Definition day_marker (nd : N → bool) (s : str) : option (nat * nat) :=
  match s with
  | c0 :: c1 :: d :: a :: y :: sp :: s6 =>
    if (c0 =? 42) && (c1 =? 42)
       && ((d =? 68) || (d =? 100)) && ((a =? 65) || (a =? 97))
       && ((y =? 89) || (y =? 121)) && (sp =? 32)
    then
      let n := run_length nd true Category_digit s6 in
      if (1 <=? n)%nat then
        match drop n s6 with
        | colon :: s7 =>
          if colon =? 58 then
            let t := run_length nd true (Not_literal 42) s7 in
            match drop t s7 with
            | a0 :: a1 :: _ =>
              if (a0 =? 42) && (a1 =? 42) then Some (n, t) else None
            | _ => None
            end
          else None
        | [] => None
        end
      else None
    else None
  | _ => None
  end.

(** The text the loop stores for the [i]-th match [m]: what follows the
    match up to the next one, stripped. *)
Definition day_body (content : str) (ms : list re_match) (i : nat)
    (m : re_match) : str :=
  py_strip (slice content (m_end m) (next_start content ms i)).

(** [s] contains a complete day marker: the day pattern matches somewhere
    in it. *)
Definition has_day_marker (nd : N → bool) (s : str) : Prop :=
  ∃ q r, match_at nd true day_pattern s q = Some r.

(** The trimming as the specification words it, for comparison with the
    code: only the newlines that open the text and those that close it are
    removed. *)
Fixpoint strip_leading_newlines (s : str) : str :=
  match s with
  | c :: s' => if c =? 10 then strip_leading_newlines s' else s
  | [] => []
  end.

Definition strip_blank_lines (s : str) : str :=
  rev (strip_leading_newlines (rev (strip_leading_newlines s))).

(** Whitespace collapsed as the specification words it: each longest run of
    whitespace becomes one space. [in_run] tells that the character before
    was whitespace. *)
Fixpoint collapse_runs (in_run : bool) (s : str) : str :=
  match s with
  | [] => []
  | c :: s' =>
    if py_isspace c then
      if in_run then collapse_runs true s' else 32 :: collapse_runs true s'
    else c :: collapse_runs false s'
  end.

(** [int(key)] returns: [key] has no more digits than the limit, if there
    is one. *)
Definition within_limit (py : interpreter) (key : str) : Prop :=
  match int_max_str_digits py with
  | Some limit => (length key ≤ limit)%nat
  | None => True
  end.

(** The order of [sorted(..., key=int)]. *)
Definition int_le (py : interpreter) (a b : str) : Prop :=
  int_value py a ≤ int_value py b.

(** ** Inputs of the examples *)

(** A database with no decimal digit outside ASCII. *)
Definition ascii_digits : N → bool := λ _, false.

(** The two-day document of the specification. *)
Definition two_days : str :=
  text "**Day 1: Title**" ++ NL ++ text "Hello" ++ NL ++ NL
    ++ text "**Day 2: Title2**" ++ NL ++ text "World".

(** A body that follows its marker on the same line, after a space. *)
Definition same_line : str := text "**Day 1: T** Hello".

(** Two markers that capture the same digits. *)
Definition same_key_twice : str := text "**Day 1: A**first**Day 1: B**second".

(** A feed of three items: a title with runs of whitespace, an item with no
    title, and a plain title. *)
Definition three_items : list item :=
  [ Item (Some (text " A  b " ++ NL ++ text "c "));
    Item None;
    Item (Some (text "C")) ].

(** The feed of the end-to-end scenario: the titles A, B and C. *)
Definition abc_items : list item :=
  [ Item (Some (text "A")); Item (Some (text "B")); Item (Some (text "C")) ].

(** A feed whose only item has a title made of one space. *)
Definition blank_title_feed : list item := [ Item (Some (text " ")) ].

(** An endpoint that answers with an empty list of choices. *)
Definition no_choices : str → str → str → result chat_response :=
  λ _ _ _, Ok (Response (Some [])).

(** A feed that cannot be reached. *)
Definition unreachable_feed : str → result (list item) :=
  λ _, Raise (Exn RequestException (text "timed out")).

(** A feed of two items, one with no title and one whose title has no
    text. *)
Definition untitled_items : list item := [ Item None; Item (Some []) ].

(** A feed with no item. *)
Definition empty_feed : str → result (list item) := λ _, Ok [].

(** The entries of the two-day document. *)
Definition two_entries : list (str * str * str) :=
  [ (text "1", text " Title", NL ++ text "Hello" ++ NL ++ NL);
    (text "2", text " Title2", NL ++ text "World") ].

(** An endpoint that answers with the two-day document, and one that
    answers with a text that has no marker. *)
Definition two_days_endpoint : str → str → str → result chat_response :=
  λ _ _ _, Ok (Response (Some [Choice (Some two_days)])).

Definition plain_endpoint : str → str → str → result chat_response :=
  λ _ _ _, Ok (Response (Some [Choice (Some (text " no headings here "))])).

(** An interpreter with the limit as it is unless set otherwise, and no
    digit outside ASCII, to go with [ascii_digits]. *)
Definition default_interpreter : interpreter :=
  Interpreter (λ _, 0) (Some 4300%nat)
    (λ n, text "Exceeds the limit (4300 digits) for integer string conversion: value has "
            ++ text (pretty n)
            ++ text " digits; use sys.set_int_max_str_digits() to increase the limit").

(** A reply with a single entry, whose key has 4301 digits. *)
Definition long_key_entry : list (str * str * str) :=
  [ (replicate 4301 49, text " Title", NL ++ text "Hello") ].

Definition long_key_endpoint : str → str → str → result chat_response :=
  λ _ _ _, Ok (Response (Some [Choice (Some (render_calendar long_key_entry))])).

(** A reply with the days 10 down to 1. *)
Definition ten_entries : list (str * str * str) :=
  (λ '(digits, body), (digits, text " Title", NL ++ body ++ NL))
    <$> [ (text "10", text "j"); (text "9", text "i"); (text "8", text "h");
          (text "7", text "g"); (text "6", text "f"); (text "5", text "e");
          (text "4", text "d"); (text "3", text "c"); (text "2", text "b");
          (text "1", text "a") ].

Definition ten_days_endpoint : str → str → str → result chat_response :=
  λ _ _ _, Ok (Response (Some [Choice (Some (render_calendar ten_entries))])).

(** Evaluate the literals of the goal. *)
Ltac eval_text :=
  repeat match goal with
  | |- context [text ?s] =>
    let v := eval vm_compute in (text s) in change (text s) with v
  end.

(** * Properties *)

(** ** Slices and stripping *)

Lemma slice_length {A} (s : list A) a b :
  (a ≤ b)%nat → (b ≤ length s)%nat → length (slice s a b) = (b - a)%nat.
Proof.
  intros Hab Hb. unfold slice. rewrite length_take, length_drop. lia.
Qed.

Lemma slice_split {A} (s : list A) a b :
  (a ≤ b)%nat → (b ≤ length s)%nat →
  s = take a s ++ slice s a b ++ drop b s.
Proof.
  intros Hab Hb. unfold slice.
  rewrite <- (take_drop a s) at 1. f_equal.
  rewrite <- (take_drop (b - a) (drop a s)) at 1. f_equal.
  rewrite drop_drop. f_equal. lia.
Qed.

Lemma slice_app {A} (s : list A) a b c :
  (a ≤ b)%nat → (b ≤ c)%nat →
  slice s a c = slice s a b ++ slice s b c.
Proof.
  intros Hab Hbc. unfold slice.
  rewrite <- (take_drop (b - a) (take (c - a) (drop a s))). f_equal.
  - rewrite take_take. f_equal. lia.
  - replace (c - a)%nat with ((b - a) + (c - b))%nat by lia.
    rewrite <- take_drop_commute, drop_drop. do 2 f_equal. lia.
Qed.

Lemma py_lstrip_split s :
  ∃ l, s = l ++ py_lstrip s ∧ Forall (λ c, py_isspace c = true) l.
Proof.
  induction s as [|c s IH]; simpl.
  - exists []. split; [done | constructor].
  - destruct (py_isspace c) eqn:Hc.
    + destruct IH as (l & Hl & Hws). exists (c :: l). split.
      * simpl. by f_equal.
      * by constructor.
    + exists []. split; [done | constructor].
Qed.

Lemma py_lstrip_head s c t : py_lstrip s = c :: t → py_isspace c = false.
Proof.
  induction s as [|d s IH]; simpl; [done |].
  destruct (py_isspace d) eqn:Hd; [done |].
  intros [= -> _]. done.
Qed.

Lemma py_rstrip_split s :
  ∃ r, s = py_rstrip s ++ r ∧ Forall (λ c, py_isspace c = true) r.
Proof.
  induction s as [|c s IH]; simpl.
  - exists []. split; [done | constructor].
  - destruct IH as (r & Hr & Hws).
    destruct (py_rstrip s) as [|d t] eqn:Hs.
    + destruct (py_isspace c) eqn:Hc.
      * exists (c :: r). simpl in Hr. subst s. split; [done | by constructor].
      * exists r. simpl in *. by subst s.
    + exists r. split; [| done]. simpl. f_equal. done.
Qed.

Lemma py_rstrip_last s c : last (py_rstrip s) = Some c → py_isspace c = false.
Proof.
  induction s as [|d s IH]; simpl; [done |].
  destruct (py_rstrip s) as [|e t] eqn:Hs.
  - destruct (py_isspace d) eqn:Hd; simpl; [done |]. by intros [= ->].
  - intros H. apply IH. exact H.
Qed.

Lemma py_rstrip_head s c t : py_rstrip s = c :: t → ∃ t', s = c :: t'.
Proof.
  destruct (py_rstrip_split s) as (r & Hr & _). intros H.
  rewrite H in Hr. simpl in Hr. eauto.
Qed.

(** [str.strip] removes a run of whitespace at each end and nothing else. *)
Lemma py_strip_spec s :
  ∃ l r, s = l ++ py_strip s ++ r
         ∧ Forall (λ c, py_isspace c = true) l
         ∧ Forall (λ c, py_isspace c = true) r
         ∧ (∀ c, head (py_strip s) = Some c → py_isspace c = false)
         ∧ (∀ c, last (py_strip s) = Some c → py_isspace c = false).
Proof.
  destruct (py_lstrip_split s) as (l & Hl & Hwl).
  destruct (py_rstrip_split (py_lstrip s)) as (r & Hr & Hwr).
  exists l, r. unfold py_strip. repeat split; try done.
  - by rewrite <- Hr.
  - intros c Hc. destruct (py_rstrip (py_lstrip s)) as [|d t] eqn:E; [done |].
    simpl in Hc. injection Hc as ->.
    apply py_rstrip_head in E as [t' E]. by apply py_lstrip_head in E.
  - apply py_rstrip_last.
Qed.

(** ** The matcher *)

Section Matcher.

Variable nd : N → bool.
Variable ic : bool.

Local Abbreviation cmatch := (charset_matches nd ic).

(** A successful repetition took some [n] characters of the class, at least
    [lo] counting those taken before, and what follows matched from there. *)
Lemma repeat_max_sound {R} cs lo (k : nat → str → option R) count pos s r :
  repeat_max nd ic cs lo k count pos s = Some r →
  ∃ n, (n ≤ length s)%nat
       ∧ Forall (λ c, cmatch cs c = true) (take n s)
       ∧ (lo ≤ count + n)%nat
       ∧ k (pos + n)%nat (drop n s) = Some r.
Proof.
  revert count pos. induction s as [|c s IH]; intros count pos; simpl.
  - destruct (lo <=? count)%nat eqn:Hlo; [| done]. intros Hk.
    exists 0%nat. apply Nat.leb_le in Hlo.
    rewrite !Nat.add_0_r. split_and!; [lia | by rewrite take_0 | lia | done].
  - assert (Hstop : (if (lo <=? count)%nat then k pos (c :: s) else None) = Some r →
      ∃ n, (n ≤ S (length s))%nat
           ∧ Forall (λ c, cmatch cs c = true) (take n (c :: s))
           ∧ (lo ≤ count + n)%nat
           ∧ k (pos + n)%nat (drop n (c :: s)) = Some r).
    { destruct (lo <=? count)%nat eqn:Hlo; [| done]. intros Hk.
      exists 0%nat. apply Nat.leb_le in Hlo.
      rewrite !Nat.add_0_r. split_and!; [lia | by rewrite take_0 | lia | done]. }
    destruct (cmatch cs c) eqn:Hc; [| exact Hstop].
    destruct (repeat_max nd ic cs lo k (S count) (S pos) s) as [r'|] eqn:Hrec;
      [| exact Hstop].
    intros [= ->]. apply IH in Hrec as (n & Hn & Hall & Hlo & Hk).
    exists (S n). simpl. split_and!; [lia | by constructor | lia |].
    by replace (pos + S n)%nat with (S pos + n)%nat by lia.
Qed.

(** When no character of the class can start what follows, the repetition
    is decided by the longest run alone. *)
Lemma repeat_max_greedy {R} cs lo (k : nat → str → option R) count pos s :
  (∀ pos' c s', cmatch cs c = true → k pos' (c :: s') = None) →
  repeat_max nd ic cs lo k count pos s =
  let n := run_length nd ic cs s in
  if (lo <=? count + n)%nat then k (pos + n)%nat (drop n s) else None.
Proof.
  intros Hdis. revert count pos.
  induction s as [|c s IH]; intros count pos; simpl.
  - by rewrite !Nat.add_0_r.
  - destruct (cmatch cs c) eqn:Hc; simpl.
    + rewrite IH. simpl. set (n := run_length nd ic cs s).
      rewrite !Nat.add_succ_r.
      destruct (lo <=? S (count + n))%nat.
      * destruct (k _ _); [done |].
        rewrite (Hdis _ _ _ Hc). by destruct (lo <=? count)%nat.
      * rewrite (Hdis _ _ _ Hc). by destruct (lo <=? count)%nat.
    + by rewrite !Nat.add_0_r.
Qed.

(** A match ends inside the subject. *)
Lemma sre_match_bound ops marks pos s e marks' :
  sre_match nd ic ops marks pos s = Some (e, marks') →
  (pos ≤ e ≤ pos + length s)%nat.
Proof.
  revert marks pos s. induction ops as [|o ops IH]; intros marks pos s; simpl.
  - intros [= -> _]. lia.
  - destruct o as [cs|lo cs|k| |].
    + destruct s as [|c s]; [done |].
      destruct (cmatch cs c); [| done]. intros H%IH. simpl. lia.
    + intros H. apply repeat_max_sound in H as (n & Hn & _ & _ & H).
      apply IH in H. rewrite length_drop in H. lia.
    + apply IH.
    + destruct (Nat.eqb pos 0); [apply IH | done].
    + destruct s as [|c [|d s]]; [apply IH | | done].
      destruct (c =? 10); [| done]. intros H%IH. simpl in *. lia.
Qed.

Lemma run_length_spec cs s :
  Forall (λ c, cmatch cs c = true) (take (run_length nd ic cs s) s)
  ∧ (∀ c, head (drop (run_length nd ic cs s) s) = Some c → cmatch cs c = false)
  ∧ (run_length nd ic cs s ≤ length s)%nat.
Proof.
  induction s as [|c s (IH1 & IH2 & IH3)]; simpl.
  - split_and!; [constructor | done | lia].
  - destruct (cmatch cs c) eqn:Hc; simpl.
    + split_and!; [by constructor | done | lia].
    + split_and!; [constructor | | lia]. by intros ? [= <-].
Qed.

Lemma run_length_app cs run rest :
  Forall (λ c, cmatch cs c = true) run →
  (∀ c, head rest = Some c → cmatch cs c = false) →
  run_length nd ic cs (run ++ rest) = length run.
Proof.
  intros Hrun Hrest. induction Hrun as [|c run Hc _ IH]; simpl.
  - destruct rest as [|c rest]; [done |]. simpl. by rewrite (Hrest c).
  - by rewrite Hc, IH.
Qed.

(** When what follows always matches, the repetition takes the longest
    run. *)
Lemma repeat_max_total {R} cs lo (k : nat → str → option R) count pos s :
  (∀ pos' s', is_Some (k pos' s')) →
  repeat_max nd ic cs lo k count pos s =
  let n := run_length nd ic cs s in
  if (lo <=? count + n)%nat then k (pos + n)%nat (drop n s) else None.
Proof.
  intros Htotal. revert count pos.
  induction s as [|c s IH]; intros count pos; simpl.
  - by rewrite !Nat.add_0_r.
  - destruct (cmatch cs c) eqn:Hc; simpl.
    + rewrite IH. simpl. set (n := run_length nd ic cs s).
      rewrite !Nat.add_succ_r.
      destruct (Nat.leb_spec lo (S (count + n))) as [Hle|Hgt].
      * by destruct (Htotal (S (pos + n)) (drop n s)) as [r ->].
      * destruct (Nat.leb_spec lo count); [lia | done].
    + by rewrite !Nat.add_0_r.
Qed.

End Matcher.

(** ** The scanner *)

Section Scanner.

Variable nd : N → bool.
Variable ic : bool.
Variable ops : list op.

(** The patterns of this program never match the empty string. *)
Hypothesis ops_nonempty : ∀ marks pos s e marks',
  sre_match nd ic ops marks pos s = Some (e, marks') → (pos < e)%nat.

Lemma scan_skip skip pos s :
  (skip ≤ length s)%nat →
  scan nd ic ops skip pos s = scan nd ic ops 0 (pos + skip) (drop skip s).
Proof.
  revert pos s. induction skip as [|skip IH]; intros pos s Hlen.
  - by rewrite Nat.add_0_r, drop_0.
  - destruct s as [|c s]; simpl in Hlen; [lia |].
    change (scan nd ic ops (S skip) pos (c :: s))
      with (scan nd ic ops skip (S pos) s).
    rewrite IH by lia. simpl drop. f_equal. lia.
Qed.

Lemma scan_end pos : scan nd ic ops 0 pos [] = [].
Proof.
  simpl. destruct (sre_match nd ic ops [] pos []) as [[e marks]|] eqn:H; [| done].
  pose proof (ops_nonempty _ _ _ _ _ H).
  apply sre_match_bound in H. simpl in H. lia.
Qed.

Lemma scan_match pos s e marks :
  sre_match nd ic ops [] pos s = Some (e, marks) →
  scan nd ic ops 0 pos s = Match pos e marks :: scan nd ic ops 0 e (drop (e - pos) s).
Proof.
  intros H. pose proof (ops_nonempty _ _ _ _ _ H) as Hlt.
  pose proof (sre_match_bound _ _ _ _ _ _ _ _ H) as Hb.
  destruct s as [|c s]; simpl in Hb; [lia |].
  simpl scan. rewrite H. f_equal.
  rewrite scan_skip by lia.
  replace (e - pos)%nat with (S (e - pos - 1)) by lia. simpl drop.
  f_equal; [lia | f_equal; lia].
Qed.

Lemma scan_nomatch pos c s :
  sre_match nd ic ops [] pos (c :: s) = None →
  scan nd ic ops 0 pos (c :: s) = scan nd ic ops 0 (S pos) s.
Proof. intros H. simpl. by rewrite H. Qed.

Lemma scanned_extend content pos ms :
  match_at nd ic ops content pos = None →
  scanned nd ic ops content (S pos) ms →
  scanned nd ic ops content pos ms.
Proof.
  intros Hnone Hs. inversion Hs as [p Hall|p m ms' Hle Hall Hm Hb Hrest]; subst.
  - constructor. intros q Hq.
    destruct (decide (q = pos)) as [->|]; [done | apply Hall; lia].
  - constructor; [lia | | done | done | done].
    intros q Hq.
    destruct (decide (q = pos)) as [->|]; [done | apply Hall; lia].
Qed.

(** The scanner returns the leftmost non-overlapping matches. *)
Lemma scan_scanned content pos :
  (pos ≤ length content)%nat →
  scanned nd ic ops content pos (scan nd ic ops 0 pos (drop pos content)).
Proof.
  remember (length content - pos)%nat as d eqn:Hd.
  revert pos Hd. induction d as [d IH] using lt_wf_ind. intros pos Hd Hpos.
  destruct (drop pos content) as [|c s] eqn:Hdrop.
  - rewrite scan_end. constructor. intros q Hq.
    assert (length (drop pos content) = 0%nat) as Hl by by rewrite Hdrop.
    rewrite length_drop in Hl. assert (q = pos) as -> by lia.
    unfold match_at. rewrite Hdrop.
    destruct (sre_match nd ic ops [] pos []) as [[e marks]|] eqn:H; [| done].
    pose proof (ops_nonempty _ _ _ _ _ H).
    apply sre_match_bound in H. simpl in H. lia.
  - assert (length (drop pos content) = S (length s)) as Hl by by rewrite Hdrop.
    rewrite length_drop in Hl.
    assert (Hs : s = drop (S pos) content).
    { replace (S pos) with (pos + 1)%nat by lia.
      by rewrite <- drop_drop, Hdrop. }
    destruct (sre_match nd ic ops [] pos (c :: s)) as [[e marks]|] eqn:H.
    + rewrite (scan_match _ _ _ _ H).
      pose proof (ops_nonempty _ _ _ _ _ H) as Hlt.
      pose proof (sre_match_bound _ _ _ _ _ _ _ _ H) as Hb. simpl in Hb.
      apply (scanned_cons nd ic ops content pos (Match pos e marks)); simpl.
      * lia.
      * intros q Hq. lia.
      * unfold match_at. by rewrite Hdrop.
      * lia.
      * rewrite <- Hdrop, drop_drop.
        replace (pos + (e - pos))%nat with e by lia.
        apply (IH (length content - e)%nat); lia.
    + rewrite (scan_nomatch _ _ _ H). apply scanned_extend.
      * unfold match_at. by rewrite Hdrop.
      * rewrite Hs. apply (IH (length content - S pos)%nat); lia.
Qed.

Lemma finditer_scanned content :
  scanned nd ic ops content 0 (finditer nd ic ops content).
Proof.
  unfold finditer. rewrite <- (drop_0 content) at 2.
  apply scan_scanned. lia.
Qed.

(** What [scanned] says about the [i]-th match and the text after it. *)
Lemma scanned_lookup content pos ms i m :
  scanned nd ic ops content pos ms →
  ms !! i = Some m →
  (pos ≤ m_start m)%nat
  ∧ (m_start m < m_end m ≤ length content)%nat
  ∧ match_at nd ic ops content (m_start m) = Some (m_end m, m_marks m)
  ∧ (m_end m ≤ next_start content ms i ≤ length content)%nat
  ∧ (∀ q, (m_end m ≤ q < next_start content ms i)%nat →
          match_at nd ic ops content q = None).
Proof.
  intros Hs. revert i m. induction Hs as [|pos m0 ms Hle Hall Hm Hb Hrest IH];
    intros i m Hi; [done |].
  destruct i as [|i]; simpl in Hi.
  - injection Hi as ->. unfold next_start. simpl.
    inversion Hrest as [p Hall1|p m1 ms1 Hle1 Hall1 _ Hb1 _]; subst; simpl.
    + split_and!; try done; try lia. intros q Hq. apply Hall1. lia.
    + split_and!; try done; lia.
  - destruct (IH i m Hi) as (H1 & H2 & H3 & H4 & H5).
    change (next_start content (m0 :: ms) (S i)) with (next_start content ms i).
    split_and!; try done; lia.
Qed.

Lemma scanned_none content pos ms :
  scanned nd ic ops content pos ms →
  (∀ q, (pos ≤ q)%nat → match_at nd ic ops content q = None) →
  ms = [].
Proof.
  intros Hs Hnone. destruct Hs as [|pos m ms Hle _ Hm _ _]; [done |].
  by rewrite Hnone in Hm.
Qed.

End Scanner.

(** ** The day pattern *)

Section DayPattern.

Variable nd : N → bool.

Local Abbreviation cmatch := (charset_matches nd true).

Lemma ascii_lower_uncased c l :
  (l < 65 ∨ 90 < l) → (l < 97 ∨ 122 < l) →
  (ascii_lower c =? l) = (c =? l).
Proof.
  intros H1 H2. unfold ascii_lower.
  destruct (N.leb_spec 65 c), (N.leb_spec c 90); simpl; try done.
  destruct (N.eqb_spec (c + 32) l), (N.eqb_spec c l); try done; lia.
Qed.

Lemma ascii_lower_letter c l :
  97 ≤ l → l ≤ 122 →
  (ascii_lower c =? l) = ((c =? l - 32) || (c =? l)).
Proof.
  intros H1 H2. unfold ascii_lower.
  destruct (N.leb_spec 65 c), (N.leb_spec c 90); simpl;
    destruct (N.eqb_spec (c + 32) l), (N.eqb_spec c (l - 32)),
      (N.eqb_spec c l); simpl; try done; lia.
Qed.

Lemma digit_not_colon c : py_isdecimal nd c = true → cmatch (Literal 58) c = false.
Proof.
  unfold py_isdecimal. simpl. change (ascii_lower 58) with 58.
  rewrite (ascii_lower_uncased c 58) by lia.
  destruct (N.ltb_spec c 128), (N.eqb_spec c 58); try done; try lia.
  subst c. done.
Qed.

Lemma sre_match_char ic cs ops marks pos c s :
  sre_match nd ic (Char cs :: ops) marks pos (c :: s) =
  if charset_matches nd ic cs c then sre_match nd ic ops marks (S pos) s else None.
Proof. done. Qed.

Lemma sre_match_char_nil ic cs ops marks pos :
  sre_match nd ic (Char cs :: ops) marks pos [] = None.
Proof. done. Qed.

Lemma sre_match_mark ic k ops marks pos s :
  sre_match nd ic (Mark k :: ops) marks pos s =
  sre_match nd ic ops ((k, pos) :: marks) pos s.
Proof. done. Qed.

Lemma sre_match_repeat ic lo cs ops marks pos s :
  sre_match nd ic (Max_repeat lo cs :: ops) marks pos s =
  repeat_max nd ic cs lo (sre_match nd ic ops marks) 0 pos s.
Proof. done. Qed.

Lemma cmatch_uncased l c :
  (l < 65 ∨ 90 < l) → (l < 97 ∨ 122 < l) →
  cmatch (Literal l) c = (c =? l).
Proof.
  intros H1 H2. simpl. rewrite <- (ascii_lower_uncased c l) by done.
  f_equal. unfold ascii_lower.
  destruct (N.leb_spec 65 l), (N.leb_spec l 90); simpl; try done. lia.
Qed.

Lemma cmatch_letter l c :
  65 ≤ l → l ≤ 90 →
  cmatch (Literal l) c = ((c =? l) || (c =? l + 32)).
Proof.
  intros H1 H2. simpl.
  assert (ascii_lower l = l + 32) as ->.
  { unfold ascii_lower.
    destruct (N.leb_spec 65 l), (N.leb_spec l 90); simpl; try done; lia. }
  rewrite ascii_lower_letter by lia. by replace (l + 32 - 32) with l by lia.
Qed.

Lemma cmatch_lower_letter l c :
  97 ≤ l → l ≤ 122 →
  cmatch (Literal l) c = ((c =? l - 32) || (c =? l)).
Proof.
  intros H1 H2. simpl.
  assert (ascii_lower l = l) as ->.
  { unfold ascii_lower.
    destruct (N.leb_spec 65 l), (N.leb_spec l 90); simpl; try done; lia. }
  by rewrite ascii_lower_letter by lia.
Qed.

Lemma day_tail_match marks pos s :
  sre_match nd true [Char (Literal 42); Char (Literal 42)] marks pos s =
  match s with
  | a0 :: a1 :: _ =>
    if (a0 =? 42) && (a1 =? 42) then Some (S (S pos), marks) else None
  | _ => None
  end.
Proof.
  destruct s as [|a0 [|a1 rest]]; [done | |].
  - rewrite sre_match_char, sre_match_char_nil. by destruct (cmatch _ _).
  - rewrite !sre_match_char, !cmatch_uncased by lia.
    by destruct (a0 =? 42), (a1 =? 42).
Qed.

(** The matcher on the day pattern computes [day_marker]. *)
Lemma day_pattern_match marks pos s :
  sre_match nd true day_pattern marks pos s =
  match day_marker nd s with
  | Some (n, t) =>
    Some ((pos + 6 + n + 1 + t + 2)%nat,
          (1, pos + 6 + n)%nat :: (0, pos + 6)%nat :: marks)
  | None => None
  end.
Proof.
  unfold day_pattern, day_marker.
  destruct s as [|c0 [|c1 [|d [|a [|y [|sp s6]]]]]];
    rewrite ?sre_match_char, ?sre_match_char_nil;
    repeat match goal with
    | |- (if ?b then None else None) = None => by destruct b
    | |- (if ?b then ?x else None) = None =>
      destruct b; [| done]
    end; try done.
  rewrite !(cmatch_uncased 42), (cmatch_uncased 32), (cmatch_letter 68),
    !cmatch_lower_letter by lia.
  change (68 + 32) with 100. change (97 - 32) with 65. change (121 - 32) with 89.
  destruct (c0 =? 42); [| done]. destruct (c1 =? 42); [| done].
  destruct ((d =? 68) || (d =? 100)); [| done].
  destruct ((a =? 65) || (a =? 97)); [| done].
  destruct ((y =? 89) || (y =? 121)); [| done].
  destruct (sp =? 32); [| done]. cbn [andb].
  rewrite sre_match_mark, sre_match_repeat.
  rewrite repeat_max_greedy; cycle 1.
  { intros pos' c s' Hc. rewrite sre_match_mark, sre_match_char.
    by rewrite (digit_not_colon c Hc). }
  cbn zeta. rewrite Nat.add_0_l.
  set (n := run_length nd true Category_digit s6).
  destruct (1 <=? n)%nat; [| done].
  rewrite sre_match_mark.
  destruct (drop n s6) as [|colon s7]; [done |].
  rewrite sre_match_char, (cmatch_uncased 58) by lia.
  destruct (colon =? 58); [| done].
  rewrite sre_match_repeat, repeat_max_greedy; cycle 1.
  { intros pos' c s' Hc. rewrite sre_match_char.
    simpl in Hc. simpl. by destruct (ascii_lower c =? ascii_lower 42). }
  cbn zeta. rewrite Nat.add_0_l. change (0 <=? _)%nat with true. cbn iota.
  set (t := run_length nd true (Not_literal 42) s7).
  rewrite day_tail_match.
  destruct (drop t s7) as [|a0 [|a1 rest]]; try done.
  destruct ((a0 =? 42) && (a1 =? 42)); [| done].
  clearbody n t. repeat f_equal; lia.
Qed.

Lemma day_pattern_nonempty marks pos s e marks' :
  sre_match nd true day_pattern marks pos s = Some (e, marks') → (pos < e)%nat.
Proof.
  rewrite day_pattern_match. destruct (day_marker nd s) as [[n t]|]; [| done].
  intros [= <- _]. lia.
Qed.

Lemma cmatch_not_star c : cmatch (Not_literal 42) c = negb (c =? 42).
Proof.
  change (cmatch (Not_literal 42) c) with (negb (cmatch (Literal 42) c)).
  by rewrite cmatch_uncased by lia.
Qed.

(** The shape of a text on which [day_marker] succeeds. *)
Lemma day_marker_elim s n t :
  day_marker nd s = Some (n, t) →
  ∃ d a y ds title rest,
    s = 42 :: 42 :: d :: a :: y :: 32 :: ds ++ 58 :: title ++ 42 :: 42 :: rest
    ∧ (d = 68 ∨ d = 100) ∧ (a = 65 ∨ a = 97) ∧ (y = 89 ∨ y = 121)
    ∧ length ds = n ∧ (1 ≤ n)%nat ∧ length title = t
    ∧ Forall (λ c, py_isdecimal nd c = true) ds
    ∧ Forall (λ c, c ≠ 42) title.
Proof.
  unfold day_marker.
  destruct s as [|c0 [|c1 [|d [|a [|y [|sp s6]]]]]]; try done.
  destruct (_ && _) eqn:Hhead; [| done].
  repeat (apply andb_true_iff in Hhead as [Hhead ?]).
  repeat match goal with
  | H : (_ =? _) = true |- _ => apply N.eqb_eq in H
  | H : (_ || _) = true |- _ => apply orb_true_iff in H; rewrite !N.eqb_eq in H
  end. subst c0 c1 sp.
  destruct (run_length_spec nd true Category_digit s6) as (Hds & _ & Hn).
  destruct (1 <=? _)%nat eqn:Hone; [| done]. apply Nat.leb_le in Hone.
  destruct (drop _ s6) as [|colon s7] eqn:Hs6; [done |].
  destruct (N.eqb_spec colon 58) as [->|]; [| done].
  destruct (run_length_spec nd true (Not_literal 42) s7) as (Htitle & _ & Ht).
  destruct (drop _ s7) as [|a0 [|a1 rest]] eqn:Hs7; try done.
  destruct (N.eqb_spec a0 42) as [->|]; [| done].
  destruct (N.eqb_spec a1 42) as [->|]; [| done].
  intros [= <- <-].
  exists d, a, y, (take (run_length nd true Category_digit s6) s6),
    (take (run_length nd true (Not_literal 42) s7) s7), rest.
  split_and!; try done.
  - do 6 f_equal. rewrite <- Hs7, take_drop, <- Hs6. by rewrite take_drop.
  - rewrite length_take. lia.
  - rewrite length_take. lia.
  - eapply Forall_impl; [exact Htitle |]. intros c Hc. cbv beta in Hc.
    rewrite cmatch_not_star in Hc. by destruct (N.eqb_spec c 42).
Qed.

(** Conversely, any text of that shape is a day marker. *)
Lemma day_marker_intro d a y ds title rest :
  (d = 68 ∨ d = 100) → (a = 65 ∨ a = 97) → (y = 89 ∨ y = 121) →
  ds ≠ [] →
  Forall (λ c, py_isdecimal nd c = true) ds →
  Forall (λ c, c ≠ 42) title →
  day_marker nd
    (42 :: 42 :: d :: a :: y :: 32 :: ds ++ 58 :: title ++ 42 :: 42 :: rest)
  = Some (length ds, length title).
Proof.
  intros Hd Ha Hy Hne Hds Htitle. unfold day_marker.
  assert (((d =? 68) || (d =? 100)) = true) as ->.
  { apply orb_true_iff. rewrite !N.eqb_eq. done. }
  assert (((a =? 65) || (a =? 97)) = true) as ->.
  { apply orb_true_iff. rewrite !N.eqb_eq. done. }
  assert (((y =? 89) || (y =? 121)) = true) as ->.
  { apply orb_true_iff. rewrite !N.eqb_eq. done. }
  rewrite !N.eqb_refl. cbn [andb]. cbn zeta.
  rewrite (run_length_app nd true Category_digit ds); [| done |]; cycle 1.
  { intros c [= <-]. done. }
  rewrite drop_app_length.
  destruct (1 <=? length ds)%nat eqn:Hlen; cycle 1.
  { apply Nat.leb_gt in Hlen. destruct ds; [done | simpl in Hlen; lia]. }
  rewrite N.eqb_refl.
  rewrite (run_length_app nd true (Not_literal 42) title); cycle 1.
  { eapply Forall_impl; [exact Htitle |]. intros c Hc. cbv beta in *.
    rewrite cmatch_not_star. by destruct (N.eqb_spec c 42). }
  { intros c [= <-]. done. }
  rewrite drop_app_length. done.
Qed.

(** A marker stays a marker when text is appended. *)
Lemma day_marker_app s s' n t :
  day_marker nd s = Some (n, t) → day_marker nd (s ++ s') = Some (n, t).
Proof.
  intros H. apply day_marker_elim in H
    as (d & a & y & ds & title & rest & -> & Hd & Ha & Hy & <- & Hn & <- & Hds & Ht).
  assert (ds ≠ []) by (destruct ds; [simpl in Hn; lia | done]).
  simpl. rewrite <- app_assoc. simpl. rewrite <- app_assoc. simpl.
  by apply day_marker_intro.
Qed.

Lemma day_match_at content q :
  match_at nd true day_pattern content q =
  match day_marker nd (drop q content) with
  | Some (n, t) =>
    Some ((q + 6 + n + 1 + t + 2)%nat, [(1, q + 6 + n); (0, q + 6)]%nat)
  | None => None
  end.
Proof. apply day_pattern_match. Qed.

End DayPattern.

(** ** The newline patterns *)

Section Cleanup.

Variable nd : N → bool.

Lemma re_sub_no_match ic ops repl content :
  (∀ marks pos s e marks',
     sre_match nd ic ops marks pos s = Some (e, marks') → (pos < e)%nat) →
  (∀ q, match_at nd ic ops content q = None) →
  re_sub nd ic ops repl content = content.
Proof.
  intros Hne Hnone. unfold re_sub.
  rewrite (scanned_none nd ic ops content 0 _ (finditer_scanned nd ic ops Hne content));
    [| intros q _; apply Hnone].
  simpl. apply drop_0.
Qed.

Lemma newline_run n (s : str) :
  Forall (λ c, charset_matches nd false (Literal 10) c = true) (take n s) →
  take n s = replicate (length (take n s)) 10.
Proof.
  intros H. induction H as [|c l Hc _ IH]; [done |].
  simpl in Hc. apply N.eqb_eq in Hc. subst c. simpl. by f_equal.
Qed.

Lemma leading_newlines_nonempty marks pos s e marks' :
  sre_match nd false leading_newlines_pattern marks pos s = Some (e, marks') →
  (pos < e)%nat.
Proof.
  unfold leading_newlines_pattern. simpl.
  destruct (Nat.eqb pos 0); [| done].
  intros H. apply repeat_max_sound in H as (n & _ & _ & Hn & H).
  injection H as <- _. lia.
Qed.

Lemma trailing_newlines_nonempty marks pos s e marks' :
  sre_match nd false trailing_newlines_pattern marks pos s = Some (e, marks') →
  (pos < e)%nat.
Proof.
  unfold trailing_newlines_pattern. simpl.
  intros H. apply repeat_max_sound in H as (n & _ & _ & Hn & H).
  destruct (drop n s) as [|c [|d r]]; [| | done].
  - injection H as <- _. lia.
  - destruct (c =? 10); [| done]. injection H as <- _. lia.
Qed.

(** [^\n+] can only match at the start of a text that begins with a
    newline. *)
Lemma leading_newlines_match content q r :
  match_at nd false leading_newlines_pattern content q = Some r →
  head content = Some 10.
Proof.
  unfold match_at, leading_newlines_pattern. simpl.
  destruct q as [|q]; [| done]. simpl. rewrite drop_0.
  intros H. apply repeat_max_sound in H as (n & Hlen & Hall & Hn & _).
  destruct n as [|n]; [lia |].
  destruct content as [|c content]; [simpl in Hlen; lia |].
  simpl in Hall. apply Forall_cons in Hall as [Hc _].
  simpl in Hc. apply N.eqb_eq in Hc. by subst c.
Qed.

(** [\n+$] can only match in a text that ends with a newline. *)
Lemma trailing_newlines_match content q r :
  match_at nd false trailing_newlines_pattern content q = Some r →
  last content = Some 10.
Proof.
  unfold match_at, trailing_newlines_pattern. simpl.
  intros H. apply repeat_max_sound in H as (n & Hlen & Hall & Hn & H).
  assert (Htail : last (drop q content) = Some 10).
  { rewrite <- (take_drop n (drop q content)).
    destruct (drop n (drop q content)) as [|c [|d t]] eqn:Hd; [| | done].
    - rewrite app_nil_r. rewrite (newline_run _ _ Hall).
      assert (length (take n (drop q content)) = n) as -> by (rewrite length_take; lia).
      destruct n as [|n]; [lia |].
      by rewrite replicate_S_end, last_snoc.
    - destruct (N.eqb_spec c 10) as [->|]; [| done].
      replace (take n (drop q content) ++ [10])
        with ((take n (drop q content)) ++ [10]) by done.
      by rewrite last_snoc. }
  rewrite <- (take_drop q content).
  destruct (drop q content) as [|c t] eqn:Hd; [done |].
  rewrite last_app. by rewrite Htail.
Qed.

(** After [strip()], the two substitutions of the loop change nothing. *)
Lemma cleanup_after_strip s :
  re_sub nd false trailing_newlines_pattern []
    (re_sub nd false leading_newlines_pattern [] (py_strip s))
  = py_strip s.
Proof.
  destruct (py_strip_spec s) as (_ & _ & _ & _ & _ & Hhead & Hlast).
  rewrite (re_sub_no_match false leading_newlines_pattern).
  - apply (re_sub_no_match false trailing_newlines_pattern).
    + apply trailing_newlines_nonempty.
    + intros q.
      destruct (match_at nd false trailing_newlines_pattern (py_strip s) q)
        as [r|] eqn:H; [| done].
      apply trailing_newlines_match in H. by apply Hlast in H.
  - apply leading_newlines_nonempty.
  - intros q.
    destruct (match_at nd false leading_newlines_pattern (py_strip s) q)
      as [r|] eqn:H; [| done].
    apply leading_newlines_match in H. by apply Hhead in H.
Qed.

End Cleanup.

(** ** The whitespace pattern *)

Section Whitespace.

Variable nd : N → bool.

Lemma whitespace_match marks pos s :
  sre_match nd false whitespace_pattern marks pos s =
  if (1 <=? run_length nd false Category_space s)%nat
  then Some ((pos + run_length nd false Category_space s)%nat, marks)
  else None.
Proof.
  unfold whitespace_pattern. rewrite sre_match_repeat.
  rewrite repeat_max_total; [done |]. intros pos' s'. by eexists.
Qed.

Lemma whitespace_nonempty marks pos s e marks' :
  sre_match nd false whitespace_pattern marks pos s = Some (e, marks') →
  (pos < e)%nat.
Proof.
  rewrite whitespace_match.
  destruct (Nat.leb_spec 1 (run_length nd false Category_space s)); [| done].
  intros [= <- _]. lia.
Qed.

(** Text before the position where the scanner stands is copied as it is. *)
Lemma sub_matches_from repl (content : str) last pos ms :
  (last ≤ pos ≤ length content)%nat →
  (∀ m, head ms = Some m → (pos ≤ m_start m ≤ length content)%nat) →
  sub_matches repl content last ms
  = slice content last pos ++ sub_matches repl content pos ms.
Proof.
  intros Hpos Hhead. destruct ms as [|m ms]; simpl.
  - unfold slice. rewrite <- (take_drop (pos - last) (drop last content)) at 1.
    f_equal. rewrite drop_drop. f_equal. lia.
  - specialize (Hhead m eq_refl).
    rewrite (slice_app content last pos (m_start m)) by lia.
    by rewrite <- app_assoc.
Qed.

Lemma collapse_runs_true s :
  collapse_runs true s
  = collapse_runs false (drop (run_length nd false Category_space s) s).
Proof.
  induction s as [|c s IH]; simpl; [done |].
  destruct (py_isspace c) eqn:Hc; simpl; [done |]. by rewrite Hc.
Qed.

(** [re.sub(r'\s+', ' ', s)] turns each longest run of whitespace into one
    space. *)
Lemma re_sub_whitespace content :
  re_sub nd false whitespace_pattern [32] content = collapse_runs false content.
Proof.
  unfold re_sub, finditer.
  assert (Hgen : ∀ d pos, d = (length content - pos)%nat →
    (pos ≤ length content)%nat →
    sub_matches [32] content pos
      (scan nd false whitespace_pattern 0 pos (drop pos content))
    = collapse_runs false (drop pos content)).
  { induction d as [d IH] using lt_wf_ind. intros pos Hd Hpos.
    destruct (drop pos content) as [|c s] eqn:Hdrop.
    - rewrite (scan_end nd false whitespace_pattern whitespace_nonempty).
      simpl. done.
    - assert (length (drop pos content) = S (length s)) as Hl by by rewrite Hdrop.
      rewrite length_drop in Hl.
      assert (Hs : s = drop (S pos) content).
      { replace (S pos) with (pos + 1)%nat by lia.
        by rewrite <- drop_drop, Hdrop. }
      pose proof (whitespace_match [] pos (c :: s)) as Hm.
      change (run_length nd false Category_space (c :: s))
        with (if py_isspace c
              then S (run_length nd false Category_space s) else 0%nat) in Hm.
      simpl collapse_runs. destruct (py_isspace c) eqn:Hc.
      + change (1 <=? S _)%nat with true in Hm. cbv iota in Hm.
        rewrite (scan_match nd false whitespace_pattern whitespace_nonempty _ _ _ _ Hm).
        pose proof (run_length_spec nd false Category_space s) as (_ & _ & Hn).
        rewrite collapse_runs_true.
        set (n := run_length nd false Category_space s) in *.
        assert (Hde : drop (pos + S n - pos) (c :: s) = drop (pos + S n) content).
        { rewrite <- Hdrop, drop_drop. f_equal. lia. }
        assert (Hdn : drop n s = drop (pos + S n) content).
        { rewrite Hs, drop_drop. f_equal. lia. }
        rewrite Hde, Hdn. simpl sub_matches.
        unfold slice. rewrite Nat.sub_diag, take_0. simpl. f_equal.
        apply (IH (length content - (pos + S n))%nat); lia.
      + change (1 <=? 0)%nat with false in Hm. cbv iota in Hm.
        rewrite (scan_nomatch nd false whitespace_pattern _ _ _ Hm).
        assert (Hsc : scanned nd false whitespace_pattern content (S pos)
                        (scan nd false whitespace_pattern 0 (S pos) s)).
        { rewrite Hs. apply scan_scanned; [apply whitespace_nonempty | lia]. }
        rewrite (sub_matches_from _ _ pos (S pos)); [| lia |].
        * unfold slice. replace (S pos - pos)%nat with 1%nat by lia.
          rewrite Hdrop. simpl. f_equal. rewrite Hs.
          apply (IH (length content - S pos)%nat); lia.
        * intros m Hhead.
          destruct Hsc as [|p m0 ms Hle _ _ Hb _]; [done |].
          simpl in Hhead. injection Hhead as <-. lia. }
  rewrite <- (drop_0 content) at 2 3. apply (Hgen (length content)); lia.
Qed.

Lemma clean_title_collapse title_text :
  clean_title nd title_text = collapse_runs false (py_strip title_text).
Proof.
  unfold clean_title. change (text " ") with [32]. apply re_sub_whitespace.
Qed.

Lemma collapse_runs_true_head s d :
  head (collapse_runs true s) = Some d → py_isspace d = false.
Proof.
  induction s as [|c s IH]; simpl; [done |].
  destruct (py_isspace c) eqn:Hc; [done |]. simpl. by intros [= <-].
Qed.

Lemma collapse_runs_space b s c :
  c ∈ collapse_runs b s → py_isspace c = true → c = 32.
Proof.
  revert b. induction s as [|c0 s IH]; intros b; simpl; [by intros ?%elem_of_nil |].
  destruct (py_isspace c0) eqn:Hc0.
  - destruct b; [apply IH |].
    intros [->|Hin]%elem_of_cons; [done | by apply (IH true)].
  - intros [->|Hin]%elem_of_cons Hc; [congruence | by apply (IH false)].
Qed.

Lemma collapse_runs_single b s l c d r :
  collapse_runs b s = l ++ c :: d :: r →
  py_isspace c = true → py_isspace d = false.
Proof.
  revert b l. induction s as [|c0 s IH]; intros b l; simpl.
  - by destruct l.
  - destruct (py_isspace c0) eqn:Hc0.
    + destruct b; [apply IH |].
      destruct l as [|x l]; simpl.
      * intros [= <- H] _. apply (collapse_runs_true_head s). by rewrite H.
      * intros [= _ H]. by apply (IH true l).
    + destruct l as [|x l]; simpl.
      * intros [= <- _]. congruence.
      * intros [= _ H]. by apply (IH false l).
Qed.

Lemma collapse_runs_last_eq b s :
  (∀ d, last s = Some d → py_isspace d = false) →
  s ≠ [] →
  collapse_runs b s ≠ [] ∧ last (collapse_runs b s) = last s.
Proof.
  revert b. induction s as [|c0 s IH]; intros b Hlast Hne; [done |].
  destruct s as [|c1 s].
  - simpl. rewrite (Hlast c0 eq_refl). done.
  - destruct (IH true) as [Ht Htl]; [by intros d Hd; apply Hlast | done |].
    destruct (IH false) as [Hf Hfl]; [by intros d Hd; apply Hlast | done |].
    change (collapse_runs b (c0 :: c1 :: s))
      with (if py_isspace c0
            then if b then collapse_runs true (c1 :: s)
                 else 32 :: collapse_runs true (c1 :: s)
            else c0 :: collapse_runs false (c1 :: s)).
    change (last (c0 :: c1 :: s)) with (last (c1 :: s)).
    destruct (py_isspace c0); [destruct b |]; try done.
    + split; [done |]. rewrite <- Htl.
      by destruct (collapse_runs true (c1 :: s)).
    + split; [done |]. rewrite <- Hfl.
      by destruct (collapse_runs false (c1 :: s)).
Qed.

Lemma collapse_runs_last b s c :
  (∀ d, last s = Some d → py_isspace d = false) →
  last (collapse_runs b s) = Some c → py_isspace c = false.
Proof.
  intros Hlast. destruct s as [|c0 s]; [done |].
  destruct (collapse_runs_last_eq b (c0 :: s) Hlast) as [_ ->]; [done |].
  apply Hlast.
Qed.

(** What holds of C2: a cleaned title neither starts nor ends with
    whitespace, its only whitespace character is the space, and no two of
    them are adjacent. *)
Lemma clean_title_normalized title_text :
  (∀ c, head (clean_title nd title_text) = Some c → py_isspace c = false)
  ∧ (∀ c, last (clean_title nd title_text) = Some c → py_isspace c = false)
  ∧ (∀ c, c ∈ clean_title nd title_text → py_isspace c = true → c = 32)
  ∧ (∀ l c d r, clean_title nd title_text = l ++ c :: d :: r →
       py_isspace c = true → py_isspace d = false).
Proof.
  rewrite clean_title_collapse.
  destruct (py_strip_spec title_text) as (_ & _ & _ & _ & _ & Hhead & Hlast).
  split_and!.
  - intros c. destruct (py_strip title_text) as [|c0 s]; simpl; [done |].
    specialize (Hhead c0 eq_refl). rewrite Hhead. simpl. by intros [= <-].
  - intros c. by apply collapse_runs_last.
  - intros c. apply collapse_runs_space.
  - intros l c d r. apply collapse_runs_single.
Qed.

End Whitespace.

(** ** The parsing loop *)

Section Parse.

Variable nd : N → bool.
Variable content : str.

Local Abbreviation day_matches := (finditer nd true day_pattern content).

(** Everything the scanner guarantees about the [i]-th marker. *)
Lemma day_match_facts i m :
  day_matches !! i = Some m →
  ∃ n t,
    day_marker nd (drop (m_start m) content) = Some (n, t)
    ∧ m_end m = (m_start m + 6 + n + 1 + t + 2)%nat
    ∧ group content m 1 = Ok (slice content (m_start m + 6) (m_start m + 6 + n))
    ∧ (m_end m ≤ next_start content day_matches i ≤ length content)%nat
    ∧ (∀ q, (m_end m ≤ q < next_start content day_matches i)%nat →
            day_marker nd (drop q content) = None).
Proof.
  intros Hi.
  destruct (scanned_lookup nd true day_pattern content 0 _ i m
              (finditer_scanned nd true day_pattern (day_pattern_nonempty nd) content) Hi)
    as (_ & Hb & Hm & Hnext & Hgap).
  rewrite day_match_at in Hm.
  destruct (day_marker nd (drop (m_start m) content)) as [[n t]|] eqn:Hmk; [| done].
  injection Hm as He Hmarks. exists n, t. split_and!; try done; try lia.
  - unfold group. rewrite <- Hmarks. simpl. done.
  - intros q Hq. specialize (Hgap q Hq). rewrite day_match_at in Hgap.
    by destruct (day_marker nd (drop q content)) as [[??]|].
Qed.

Lemma parse_step_ok i m posts :
  day_matches !! i = Some m →
  ∃ key, group content m 1 = Ok key
         ∧ parse_step nd content day_matches i m posts
           = Ok (<[key := day_body content day_matches i m]> posts).
Proof.
  intros Hi. destruct (day_match_facts i m Hi) as (n & t & _ & _ & Hg & _ & _).
  eexists. split; [exact Hg |].
  unfold parse_step. rewrite Hg. simpl.
  assert (Hend :
    (if (i + 1 <? length day_matches)%nat
     then m' ← index day_matches (i + 1); Ok (m_start m')
     else Ok (length content)) = Ok (next_start content day_matches i)).
  { unfold next_start, index. replace (i + 1)%nat with (S i) by lia.
    destruct (Nat.ltb_spec (S i) (length day_matches)) as [Hlt|Hge].
    - apply lookup_lt_is_Some in Hlt as [m' Hm']. by rewrite Hm'.
    - by rewrite (lookup_ge_None_2 _ _ Hge). }
  rewrite Hend. simpl. unfold day_body. by rewrite cleanup_after_strip.
Qed.

(** The loop from index [i] on: it ends normally, a key keeps the body of
    its last marker, other keys are untouched, and nothing else is stored. *)
Lemma parse_loop_spec rest i posts :
  (∀ j m, rest !! j = Some m → day_matches !! (i + j)%nat = Some m) →
  ∃ posts',
    parse_loop nd content day_matches i rest posts = Ok posts'
    ∧ (∀ j m key, rest !! j = Some m → group content m 1 = Ok key →
         (∀ j' m', (j < j')%nat → rest !! j' = Some m' →
                   group content m' 1 ≠ Ok key) →
         posts' !! key = Some (day_body content day_matches (i + j) m))
    ∧ (∀ key, (∀ j m, rest !! j = Some m → group content m 1 ≠ Ok key) →
         posts' !! key = posts !! key)
    ∧ (∀ key body, posts' !! key = Some body →
         posts !! key = Some body
         ∨ ∃ j m, rest !! j = Some m ∧ group content m 1 = Ok key
                  ∧ body = day_body content day_matches (i + j) m)
    ∧ (∀ key, is_Some (posts !! key)
              ∨ (∃ j m, rest !! j = Some m ∧ group content m 1 = Ok key) →
         is_Some (posts' !! key)).
Proof.
  revert i posts. induction rest as [|m rest IH]; intros i posts Hrest.
  - exists posts. split_and!; try done.
    + intros key body H. by left.
    + intros key [H|(j & m & Hj & _)]; done.
  - destruct (parse_step_ok i m posts) as (key0 & Hkey0 & Hstep).
    { rewrite <- (Nat.add_0_r i). by apply Hrest. }
    destruct (IH (S i) (<[key0 := day_body content day_matches i m]> posts))
      as (posts' & Hloop & Hlast & Hother & Hfrom & Hdom).
    { intros j m' Hj. replace (S i + j)%nat with (i + S j)%nat by lia.
      by apply Hrest. }
    exists posts'. split_and!.
    + simpl. rewrite Hstep. simpl. exact Hloop.
    + intros j m' key Hj Hkey Hlater. destruct j as [|j]; simpl in Hj.
      * injection Hj as <-. rewrite Hkey0 in Hkey. injection Hkey as <-.
        rewrite Hother.
        -- rewrite Nat.add_0_r. apply lookup_insert_eq.
        -- intros j m' Hj. apply (Hlater (S j) m'); [lia | done].
      * replace (i + S j)%nat with (S i + j)%nat by lia.
        apply Hlast; [done | done |].
        intros j' m'' Hlt Hj'. apply (Hlater (S j') m''); [lia | done].
    + intros key Hnone. rewrite Hother.
      * apply lookup_insert_ne. intros ->. by apply (Hnone 0%nat m).
      * intros j m' Hj. by apply (Hnone (S j) m').
    + intros key body Hlook. apply Hfrom in Hlook as [Hlook|(j & m' & Hj & Hk & Hb)].
      * destruct (decide (key0 = key)) as [->|Hne].
        -- rewrite lookup_insert_eq in Hlook. injection Hlook as <-.
           right. exists 0%nat, m. rewrite Nat.add_0_r. done.
        -- rewrite lookup_insert_ne in Hlook by done. by left.
      * right. exists (S j), m'. replace (i + S j)%nat with (S i + j)%nat by lia.
        done.
    + intros key [Hin|(j & m' & Hj & Hk)]; apply Hdom.
      * left. by apply lookup_insert_is_Some', or_intror.
      * destruct j as [|j]; simpl in Hj.
        -- injection Hj as <-. rewrite Hkey0 in Hk. injection Hk as <-.
           left. rewrite lookup_insert_eq. by eexists.
        -- right. by exists j, m'.
Qed.

(** [parse_generated_content] as a whole. *)
Lemma parse_spec :
  ∃ posts,
    parse_generated_content nd content = Ok posts
    ∧ (∀ i m key, day_matches !! i = Some m → group content m 1 = Ok key →
         (∀ j m', (i < j)%nat → day_matches !! j = Some m' →
                  group content m' 1 ≠ Ok key) →
         posts !! key = Some (day_body content day_matches i m))
    ∧ (∀ key body, posts !! key = Some body →
         ∃ i m, day_matches !! i = Some m ∧ group content m 1 = Ok key
                ∧ body = day_body content day_matches i m)
    ∧ (∀ i m key, day_matches !! i = Some m → group content m 1 = Ok key →
         is_Some (posts !! key)).
Proof.
  destruct (parse_loop_spec day_matches 0 ∅)
    as (posts & Hloop & Hlast & _ & Hfrom & Hdom).
  { intros j m Hj. done. }
  exists posts. split_and!; [done | | |].
  - intros i m key Hi Hkey Hlater. by apply (Hlast i m key).
  - intros key body Hlook. apply Hfrom in Hlook as [Hlook|Hlook]; [done |].
    exact Hlook.
  - intros i m key Hi Hkey. apply Hdom. right. by exists i, m.
Qed.

End Parse.

(** * The response parser *)

(** C5. For every text, [parse_generated_content] returns a mapping and
    raises nothing; when the day pattern matches nowhere in the text, the
    mapping is empty. *)
Theorem parse_never_raises (nd : N → bool) (content : str) :
  (∃ posts, parse_generated_content nd content = Ok posts)
  ∧ (¬ has_day_marker nd content → parse_generated_content nd content = Ok ∅).
Proof.
  split.
  - destruct (parse_spec nd content) as (posts & H & _). by exists posts.
  - intros Hnone. unfold parse_generated_content.
    rewrite (scanned_none nd true day_pattern content 0 _
               (finditer_scanned nd true day_pattern (day_pattern_nonempty nd) content));
      [done |].
    intros q _.
    destruct (match_at nd true day_pattern content q) as [r|] eqn:H; [| done].
    exfalso. apply Hnone. by exists q, r.
Qed.

(** C1, as the code has it. The body stored for the [i]-th marker, when no
    later marker captures the same digits, is the text between the end of
    that marker and the start of the next one (or the end of the text) with
    all leading and all trailing whitespace removed, blank lines or not, and
    nothing else removed. *)
Theorem parse_body_is_stripped_span (nd : N → bool) (content : str)
    (i : nat) (m : re_match) :
  finditer nd true day_pattern content !! i = Some m →
  (∀ j m', (i < j)%nat → finditer nd true day_pattern content !! j = Some m' →
           group content m' 1 ≠ group content m 1) →
  ∃ posts key body lead trail,
    parse_generated_content nd content = Ok posts
    ∧ group content m 1 = Ok key
    ∧ posts !! key = Some body
    ∧ slice content (m_end m)
        (next_start content (finditer nd true day_pattern content) i)
      = lead ++ body ++ trail
    ∧ Forall (λ c, py_isspace c = true) lead
    ∧ Forall (λ c, py_isspace c = true) trail
    ∧ (∀ c, head body = Some c → py_isspace c = false)
    ∧ (∀ c, last body = Some c → py_isspace c = false).
Proof.
  intros Hi Hlater.
  destruct (parse_spec nd content) as (posts & Hparse & Hlast & _ & _).
  destruct (day_match_facts nd content i m Hi) as (n & t & _ & _ & Hkey & _ & _).
  set (span := slice content (m_end m)
                 (next_start content (finditer nd true day_pattern content) i)).
  destruct (py_strip_spec span) as (lead & trail & Hsplit & Hl & Ht & Hh & Hla).
  exists posts, (slice content (m_start m + 6) (m_start m + 6 + n)),
    (py_strip span), lead, trail.
  split_and!; try done.
  apply (Hlast i m); [done | done |].
  intros j m' Hlt Hj. rewrite <- Hkey. by apply (Hlater j m').
Qed.

(** C3. When a later marker captures the same digits as an earlier one, the
    key holds the body of the last such marker, and no other body. *)
Theorem parse_last_write_wins (nd : N → bool) (content : str)
    (i j : nat) (mi mj : re_match) :
  finditer nd true day_pattern content !! i = Some mi →
  finditer nd true day_pattern content !! j = Some mj →
  (i < j)%nat →
  group content mi 1 = group content mj 1 →
  (∀ j' m', (j < j')%nat →
            finditer nd true day_pattern content !! j' = Some m' →
            group content m' 1 ≠ group content mj 1) →
  ∃ posts key,
    parse_generated_content nd content = Ok posts
    ∧ group content mi 1 = Ok key
    ∧ posts !! key
      = Some (day_body content (finditer nd true day_pattern content) j mj)
    ∧ (∀ body, posts !! key = Some body →
         body = day_body content (finditer nd true day_pattern content) j mj).
Proof.
  intros Hi Hj Hlt Hsame Hlater.
  destruct (parse_spec nd content) as (posts & Hparse & Hlast & _ & _).
  destruct (day_match_facts nd content j mj Hj) as (n & t & _ & _ & Hkey & _ & _).
  assert (Hlook : posts !! slice content (m_start mj + 6) (m_start mj + 6 + n)
                  = Some (day_body content (finditer nd true day_pattern content) j mj)).
  { apply (Hlast j mj); [done | done |].
    intros j' m' Hlt' Hj'. rewrite <- Hkey. by apply (Hlater j' m'). }
  exists posts, (slice content (m_start mj + 6) (m_start mj + 6 + n)).
  split_and!; [done | by rewrite Hsame | done |].
  intros body Hbody. rewrite Hlook in Hbody. by injection Hbody.
Qed.

Lemma day_marker_no_star (nd : N → bool) (s : str) :
  Forall (λ c, c ≠ 42) s → day_marker nd s = None.
Proof.
  intros Hs. destruct (day_marker nd s) as [[n t]|] eqn:H; [| done].
  apply day_marker_elim in H as (d & a & y & ds & title & rest & -> & _).
  by apply Forall_cons in Hs as [? _].
Qed.

(** The digits a marker captures, as they stand in the text. *)
Lemma day_key_digits (nd : N → bool) (content : str) (i : nat) (m : re_match) :
  finditer nd true day_pattern content !! i = Some m →
  ∃ key rest,
    group content m 1 = Ok key
    ∧ drop (m_start m + 6) content = key ++ 58 :: rest
    ∧ key = slice content (m_start m + 6) (m_start m + 6 + length key)
    ∧ key ≠ []
    ∧ Forall (λ c, py_isdecimal nd c = true) key.
Proof.
  intros Hi.
  destruct (day_match_facts nd content i m Hi) as (n & t & Hmk & _ & Hkey & _ & _).
  apply day_marker_elim in Hmk
    as (d & a & y & ds & title & rest & Hdrop & _ & _ & _ & Hn & Hone & _ & Hds & _).
  assert (Hds6 : drop (m_start m + 6) content = ds ++ 58 :: title ++ 42 :: 42 :: rest).
  { by rewrite <- drop_drop, Hdrop. }
  assert (Hslice : slice content (m_start m + 6) (m_start m + 6 + n) = ds).
  { unfold slice. rewrite Hds6.
    replace (m_start m + 6 + n - (m_start m + 6))%nat with (length ds) by lia.
    by rewrite take_app_length. }
  exists ds, (title ++ 42 :: 42 :: rest). split_and!; try done.
  - by rewrite Hkey, Hslice.
  - by rewrite Hn.
  - intros ->. simpl in Hn. lia.
Qed.

(** C8. The digits captured by a marker are the key, exactly as they stand
    in the text after the six characters that open the marker; and any
    non-empty digit string, such as 01 or 42, is taken as a key unchanged. *)
Theorem parse_key_verbatim (nd : N → bool) :
  (∀ content i m,
     finditer nd true day_pattern content !! i = Some m →
     ∃ posts key,
       parse_generated_content nd content = Ok posts
       ∧ group content m 1 = Ok key
       ∧ key = slice content (m_start m + 6) (m_start m + 6 + length key)
       ∧ key ≠ []
       ∧ is_Some (posts !! key))
  ∧ (∀ ds title body,
       ds ≠ [] →
       Forall (λ c, py_isdecimal nd c = true) ds →
       Forall (λ c, c ≠ 42) title →
       Forall (λ c, c ≠ 42) body →
       parse_generated_content nd
         (text "**Day " ++ ds ++ text ":" ++ title ++ text "**" ++ body)
       = Ok {[ ds := py_strip body ]}).
Proof.
  split.
  - intros content i m Hi.
    destruct (parse_spec nd content) as (posts & Hparse & _ & _ & Hdom).
    destruct (day_key_digits nd content i m Hi) as (key & rest & Hkey & _ & Hs & Hne & _).
    exists posts, key. split_and!; try done. by apply (Hdom i m).
  - intros ds title body Hne Hds Htitle Hbody.
    change (text "**Day ") with [42; 42; 68; 97; 121; 32].
    change (text ":") with [58]. change (text "**") with [42; 42].
    set (content := [42; 42; 68; 97; 121; 32] ++ ds ++ [58] ++ title ++ [42; 42] ++ body).
    set (e := (0 + 6 + length ds + 1 + length title + 2)%nat).
    set (M := Match 0 e [(1, 0 + 6 + length ds); (0, 0 + 6)]%nat).
    assert (Hmk : day_marker nd content = Some (length ds, length title)).
    { apply day_marker_intro; auto. }
    assert (Hdrop : drop e content = body).
    { unfold content. rewrite !app_assoc.
      apply drop_app_length'. rewrite !length_app. simpl. unfold e. lia. }
    assert (Hfind : finditer nd true day_pattern content = [M]).
    { unfold finditer.
      rewrite (scan_match nd true day_pattern (day_pattern_nonempty nd) 0 content e
                 [(1, 0 + 6 + length ds); (0, 0 + 6)]%nat);
        [| by rewrite day_pattern_match, Hmk].
      f_equal. rewrite Nat.sub_0_r.
      assert (He : (e ≤ length content)%nat).
      { unfold content, e. rewrite !length_app. simpl. lia. }
      apply (scanned_none nd true day_pattern content e).
      - apply scan_scanned; [apply day_pattern_nonempty | done].
      - intros q Hq. rewrite day_match_at.
        replace q with (e + (q - e))%nat by lia.
        rewrite <- drop_drop, Hdrop.
        rewrite day_marker_no_star; [done |]. by apply Forall_drop. }
    destruct (parse_step_ok nd content 0 M ∅) as (key & Hkey & Hstep).
    { by rewrite Hfind. }
    unfold parse_generated_content. cbv zeta.
    assert (Hloop : ∀ ms, ms = [M] →
      parse_loop nd content (finditer nd true day_pattern content) 0 ms ∅
      = Ok (<[key := day_body content (finditer nd true day_pattern content) 0 M]> ∅)).
    { intros ms ->. simpl. by rewrite Hstep. }
    rewrite (Hloop _ Hfind). f_equal.
    assert (key = ds) as ->.
    { unfold group in Hkey. simpl in Hkey. injection Hkey as <-.
      unfold slice, content. simpl.
      replace (length ds - 0)%nat with (length ds) by lia.
      by rewrite drop_0, take_app_length. }
    assert (day_body content (finditer nd true day_pattern content) 0 M
            = py_strip body) as ->.
    { unfold day_body, next_start. rewrite Hfind. simpl m_end. simpl lookup.
      unfold slice. rewrite Hdrop. f_equal. apply take_ge.
      rewrite <- Hdrop, length_drop. lia. }
    apply insert_empty.
Qed.

(** No marker lies in the stripped text between two consecutive matches. *)
Lemma day_body_no_marker (nd : N → bool) (content : str) (i : nat)
    (m : re_match) :
  finditer nd true day_pattern content !! i = Some m →
  ¬ has_day_marker nd
      (day_body content (finditer nd true day_pattern content) i m).
Proof.
  intros Hi (q & r & Hm).
  destruct (day_match_facts nd content i m Hi) as (n & t & _ & _ & _ & Hnext & Hgap).
  set (ns := next_start content (finditer nd true day_pattern content) i) in *.
  unfold day_body in Hm. fold ns in Hm.
  set (span := slice content (m_end m) ns) in *.
  rewrite day_match_at in Hm.
  destruct (day_marker nd (drop q (py_strip span))) as [[n' t']|] eqn:Hb; [| done].
  destruct (py_strip_spec span) as (lead & trail & Hsplit & _).
  remember (py_strip span) as b eqn:Eb. clear Eb.
  assert (Hq : (q < length b)%nat).
  { apply day_marker_elim in Hb as (d & a & y & ds & title & rest & Hd & _).
    assert (length (drop q b) ≠ 0%nat) as Hlen by by rewrite Hd.
    rewrite length_drop in Hlen. lia. }
  assert (Hspan : length span = (ns - m_end m)%nat).
  { apply slice_length; lia. }
  assert (Hlen : (length lead + length b + length trail = ns - m_end m)%nat).
  { rewrite <- Hspan, Hsplit, !length_app. lia. }
  assert (Hcontent : content =
    (take (m_end m) content ++ lead) ++ b ++ trail ++ drop ns content).
  { rewrite (slice_split content (m_end m) ns) at 1 by lia.
    fold span. rewrite Hsplit. by rewrite <- !app_assoc. }
  assert (Hdrop : drop (m_end m + length lead + q) content
                  = drop q b ++ trail ++ drop ns content).
  { rewrite Hcontent at 1.
    replace (m_end m + length lead + q)%nat
      with (length (take (m_end m) content ++ lead) + q)%nat
      by (rewrite length_app, length_take; lia).
    rewrite drop_app_add'; [| done].
    rewrite drop_app_le by lia. done. }
  apply (day_marker_app nd _ (trail ++ drop ns content)) in Hb.
  rewrite <- Hdrop in Hb. rewrite Hgap in Hb; [done |]. lia.
Qed.

(** C10. Every key of the returned mapping is a non-empty string of decimal
    digits (of the digits 0 to 9 when the text is ASCII), and no body holds
    a complete day marker. *)
Theorem parse_keys_and_bodies (nd : N → bool) (content : str)
    (posts : gmap str str) (key body : str) :
  parse_generated_content nd content = Ok posts →
  posts !! key = Some body →
  key ≠ []
  ∧ Forall (λ c, py_isdecimal nd c = true) key
  ∧ (Forall (λ c, c < 128) content → Forall (λ c, 48 ≤ c ≤ 57) key)
  ∧ ¬ has_day_marker nd body.
Proof.
  intros Hparse Hlook.
  destruct (parse_spec nd content) as (posts' & Hparse' & _ & Hfrom & _).
  rewrite Hparse in Hparse'. injection Hparse' as <-.
  apply Hfrom in Hlook as (i & m & Hi & Hkey & ->).
  destruct (day_key_digits nd content i m Hi)
    as (key' & rest & Hkey' & Hdrop & _ & Hne & Hds).
  rewrite Hkey in Hkey'. injection Hkey' as <-.
  split_and!; try done.
  - intros Hascii.
    assert (Hsmall : Forall (λ c, c < 128) key).
    { apply (Forall_drop _ (m_start m + 6)) in Hascii.
      rewrite Hdrop in Hascii. by apply Forall_app in Hascii as [? _]. }
    rewrite Forall_forall in Hds, Hsmall. apply Forall_forall. intros c Hc.
    specialize (Hds c Hc). specialize (Hsmall c Hc). unfold py_isdecimal in Hds.
    destruct (N.ltb_spec c 128); [| lia].
    apply andb_true_iff in Hds as [H1%N.leb_le H2%N.leb_le]. lia.
  - by apply day_body_no_marker.
Qed.

(** * The headline fetcher *)

Lemma collect_headlines_eq (nd : N → bool) (items : list item)
    (headlines : list str) :
  collect_headlines nd items headlines =
  headlines ++ (clean_title nd <$>
                filter (λ t, t ≠ []) (omap item_title items)).
Proof.
  revert headlines. induction items as [|it items IH]; intros headlines; simpl.
  - by rewrite app_nil_r.
  - destruct (item_title it) as [t|]; simpl; [| apply IH].
    rewrite filter_cons. case_bool_decide; case_decide; try done.
    rewrite IH. by rewrite <- app_assoc.
Qed.

Lemma omap_take_sublist {A B} (f : A → option B) (l : list A) n :
  omap f (take n l) `sublist_of` omap f l.
Proof.
  revert n. induction l as [|x l IH]; intros [|n]; simpl; try done.
  - apply sublist_nil_l.
  - destruct (f x); [by apply sublist_skip | done].
Qed.

Lemma length_omap_le {A B} (f : A → option B) (l : list A) :
  (length (omap f l) ≤ length l)%nat.
Proof.
  induction l as [|x l IH]; [done |].
  cbn. destruct (f x); cbn; fold (omap f l); lia.
Qed.

(** C6. Asked for at most [max_headlines] headlines, a count and so not
    negative, the fetcher returns at most that many: the cleaned titles of
    the first [max_headlines] items that have a non-empty title, in the
    order of the feed, none reordered and none merged. *)
Theorem fetch_bounded_in_order (nd : N → bool)
    (get_feed : str → result (list item)) (industry_keyword : str)
    (max_headlines : Z) (headlines : list str) :
  (0 ≤ max_headlines)%Z →
  scrape_google_news nd get_feed industry_keyword max_headlines = Ok headlines →
  ∃ items kept,
    get_feed (industry_keyword ++ text " industry news") = Ok items
    ∧ (Z.of_nat (length headlines) ≤ max_headlines)%Z
    ∧ kept = filter (λ t, t ≠ [])
               (omap item_title (take (Z.to_nat max_headlines) items))
    ∧ kept `sublist_of` omap item_title items
    ∧ headlines = clean_title nd <$> kept.
Proof.
  intros Hmax. unfold scrape_google_news, try_except.
  destruct (get_feed _) as [items|e] eqn:Hfeed; simpl.
  - intros [= <-]. exists items. eexists.
    rewrite collect_headlines_eq. simpl. unfold slice_to.
    destruct (Z.leb_spec 0 max_headlines); [| lia].
    split_and!; [done | | done | | done].
    + rewrite length_fmap.
      pose proof (length_filter (λ t : str, t ≠ [])
                    (omap item_title (take (Z.to_nat max_headlines) items))).
      pose proof (length_omap_le item_title (take (Z.to_nat max_headlines) items)).
      pose proof (length_take_le items (Z.to_nat max_headlines)).
      rewrite length_take in *. lia.
    + etrans; [apply sublist_filter | apply omap_take_sublist].
  - by destruct (exn_class e).
Qed.

(** C2, evaluated where the code departs from it: a title made of one space
    passes the test [title and title.text], is stripped to the empty string,
    and is returned as an empty headline. *)
Theorem fetch_blank_title_kept :
  scrape_google_news ascii_digits (λ _, Ok blank_title_feed) (text "fintech") 10
  = Ok [ [] ].
Proof. vm_compute. reflexivity. Qed.

(** * The generation client *)

(** C4. When the endpoint answers with an empty list of choices, the call
    raises [TogetherAPIError], and the message holds the text of the
    cause. *)
Theorem generate_empty_choices
    (create : str → str → str → result chat_response)
    (prompt api_key model : str) (response : chat_response) :
  create api_key model prompt = Ok response →
  choices response = Some [] →
  call_together_api create prompt api_key model
  = Raise (Exn TogetherAPIError
             (text "API request failed: " ++ text "No content generated by API")).
Proof.
  intros Hcreate Hchoices. unfold call_together_api.
  rewrite Hcreate. simpl. by rewrite Hchoices.
Qed.

(** C9. Whatever [call_together_api] raises is a [TogetherAPIError] whose
    message starts with "API request failed: "; this holds of the error the
    function raises itself when there is no choice, whose own message comes
    after the prefix. *)
Theorem generate_errors_prefixed
    (create : str → str → str → result chat_response)
    (prompt api_key model : str) (e : exception) :
  call_together_api create prompt api_key model = Raise e →
  exn_class e = TogetherAPIError
  ∧ (∃ cause, exn_str e = text "API request failed: " ++ cause)
  ∧ (∀ response,
       create api_key model prompt = Ok response →
       choices response = Some [] ∨ choices response = None →
       exn_str e
       = text "API request failed: " ++ text "No content generated by API").
Proof.
  unfold call_together_api.
  destruct (create api_key model prompt) as [response|e0] eqn:Hcreate;
    cbn [mbind result_bind try_except].
  - destruct (choices response) as [[|first rest]|] eqn:Hchoices.
    + intros [= <-]. split_and!; [reflexivity | by eexists |].
      intros _ _ _. reflexivity.
    + destruct (message_content first); [discriminate |].
      intros [= <-]. split_and!; [reflexivity | by eexists |].
      intros response' [= <-] [H|H]; rewrite Hchoices in H; discriminate.
    + intros [= <-]. split_and!; [reflexivity | by eexists |].
      intros _ _ _. reflexivity.
  - intros [= <-]. split_and!; [reflexivity | by eexists |].
    intros response [=].
Qed.

(** * The prompt composer *)

(** C7. Two calls of [construct_viral_prompt] with the same profile and the
    same headlines give the same text. *)
Theorem compose_deterministic
    (bio recent_post industry : str) (headlines : list str)
    (bio' recent_post' industry' : str) (headlines' : list str) :
  bio = bio' → recent_post = recent_post' → industry = industry' →
  headlines = headlines' →
  construct_viral_prompt bio recent_post industry headlines
  = construct_viral_prompt bio' recent_post' industry' headlines'.
Proof. by intros -> -> -> ->. Qed.

(** * Examples *)

Example parse_two_days :
  parse_generated_content ascii_digits two_days
  = Ok {[ text "1" := text "Hello"; text "2" := text "World" ]}.
Proof. vm_compute. reflexivity. Qed.

(** A negative bound, which the form never gives, is counted from the end
    of the feed, as slices do. *)
Example fetch_negative_bound :
  scrape_google_news ascii_digits (λ _, Ok abc_items) (text "fintech") (-1)
  = Ok [ text "A"; text "B" ].
Proof. vm_compute. reflexivity. Qed.

(** A text with no marker. *)
Lemma parse_never_raises_witness :
  parse_generated_content ascii_digits (text "hello") = Ok ∅.
Proof.
  apply (proj2 (parse_never_raises ascii_digits (text "hello"))).
  intros (q & r & H).
  do 6 (destruct q as [|q]; [vm_compute in H; discriminate |]).
  vm_compute in H. discriminate.
Defined.

(** C1 as the specification words it fails on [same_line]: between the
    marker and the end of the text stands " Hello", which has no blank line
    to strip, and the code stores "Hello". *)
Lemma parse_body_blank_lines_counterexample :
  finditer ascii_digits true day_pattern same_line
    = [Match 0 12 [(1, 7); (0, 6)]%nat]
  ∧ strip_blank_lines (slice same_line 12 (length same_line)) = text " Hello"
  ∧ parse_generated_content ascii_digits same_line
    = Ok {[ text "1" := text "Hello" ]}
  ∧ ¬ (∀ posts, parse_generated_content ascii_digits same_line = Ok posts →
         posts !! text "1"
         = Some (strip_blank_lines (slice same_line 12 (length same_line)))).
Proof.
  split_and!; try (vm_compute; reflexivity).
  intros H. specialize (H _ eq_refl). vm_compute in H. discriminate.
Qed.

(** The only marker of [same_line]. *)
Lemma parse_body_is_stripped_span_witness :
  ∃ posts key body lead trail,
    parse_generated_content ascii_digits same_line = Ok posts
    ∧ group same_line (Match 0 12 [(1, 7); (0, 6)]%nat) 1 = Ok key
    ∧ posts !! key = Some body
    ∧ slice same_line 12
        (next_start same_line (finditer ascii_digits true day_pattern same_line) 0)
      = lead ++ body ++ trail
    ∧ Forall (λ c, py_isspace c = true) lead
    ∧ Forall (λ c, py_isspace c = true) trail
    ∧ (∀ c, head body = Some c → py_isspace c = false)
    ∧ (∀ c, last body = Some c → py_isspace c = false).
Proof.
  apply (parse_body_is_stripped_span ascii_digits same_line 0
           (Match 0 12 [(1, 7); (0, 6)]%nat)).
  - vm_compute. reflexivity.
  - intros j m' Hlt Hj.
    assert (finditer ascii_digits true day_pattern same_line
            = [Match 0 12 [(1, 7); (0, 6)]%nat]) as Hfind by (vm_compute; reflexivity).
    rewrite Hfind in Hj. destruct j as [|j]; [lia | discriminate].
Defined.

(** The two markers of [same_key_twice]. *)
Lemma parse_last_write_wins_witness :
  ∃ posts key,
    parse_generated_content ascii_digits same_key_twice = Ok posts
    ∧ group same_key_twice (Match 0 12 [(1, 7); (0, 6)]%nat) 1 = Ok key
    ∧ posts !! key
      = Some (day_body same_key_twice
                (finditer ascii_digits true day_pattern same_key_twice) 1
                (Match 17 29 [(1, 24); (0, 23)]%nat))
    ∧ (∀ body, posts !! key = Some body →
         body = day_body same_key_twice
                  (finditer ascii_digits true day_pattern same_key_twice) 1
                  (Match 17 29 [(1, 24); (0, 23)]%nat)).
Proof.
  assert (finditer ascii_digits true day_pattern same_key_twice
          = [Match 0 12 [(1, 7); (0, 6)]%nat; Match 17 29 [(1, 24); (0, 23)]%nat])
    as Hfind by (vm_compute; reflexivity).
  apply (parse_last_write_wins ascii_digits same_key_twice 0 1).
  - by rewrite Hfind.
  - by rewrite Hfind.
  - lia.
  - vm_compute. reflexivity.
  - intros j' m' Hlt Hj. rewrite Hfind in Hj.
    destruct j' as [|[|j']]; [lia | lia | discriminate].
Defined.

Example parse_same_key_twice :
  parse_generated_content ascii_digits same_key_twice
  = Ok {[ text "1" := text "second" ]}.
Proof. vm_compute. reflexivity. Qed.

(** The digits 01 stay 01. *)
Lemma parse_key_verbatim_witness :
  parse_generated_content ascii_digits
    (text "**Day " ++ text "01" ++ text ":" ++ text " Launch" ++ text "**"
       ++ (NL ++ text "Hello"))
  = Ok {[ text "01" := py_strip (NL ++ text "Hello") ]}.
Proof.
  apply (proj2 (parse_key_verbatim ascii_digits)).
  - eval_text. discriminate.
  - eval_text. repeat (constructor; [reflexivity |]). constructor.
  - eval_text. repeat (constructor; [discriminate |]). constructor.
  - eval_text. unfold NL. simpl app.
    repeat (constructor; [discriminate |]). constructor.
Defined.

(** The first entry of the two-day document. *)
Lemma parse_keys_and_bodies_witness :
  text "1" ≠ []
  ∧ Forall (λ c, py_isdecimal ascii_digits c = true) (text "1")
  ∧ (Forall (λ c, c < 128) two_days → Forall (λ c, 48 ≤ c ≤ 57) (text "1"))
  ∧ ¬ has_day_marker ascii_digits (text "Hello").
Proof.
  apply (parse_keys_and_bodies ascii_digits two_days
           {[ text "1" := text "Hello"; text "2" := text "World" ]}).
  - vm_compute. reflexivity.
  - vm_compute. reflexivity.
Defined.

(** Two headlines asked of [three_items]: the second item has no title. *)
Lemma fetch_bounded_in_order_witness :
  ∃ items kept,
    Ok three_items = Ok items
    ∧ (Z.of_nat (length [text "A b c"]) ≤ 2)%Z
    ∧ kept = filter (λ t, t ≠ []) (omap item_title (take (Z.to_nat 2) items))
    ∧ kept `sublist_of` omap item_title items
    ∧ [text "A b c"] = clean_title ascii_digits <$> kept.
Proof.
  apply (fetch_bounded_in_order ascii_digits (λ _, Ok three_items)
           (text "fintech") 2 [text "A b c"]).
  - lia.
  - vm_compute. reflexivity.
Defined.

(** The endpoint [no_choices]. *)
Lemma generate_empty_choices_witness :
  call_together_api no_choices (text "prompt") (text "key") (text "model")
  = Raise (Exn TogetherAPIError
             (text "API request failed: " ++ text "No content generated by API")).
Proof.
  apply (generate_empty_choices no_choices (text "prompt") (text "key")
           (text "model") (Response (Some []))); reflexivity.
Defined.

(** The error raised on [no_choices]. *)
Lemma generate_errors_prefixed_witness :
  TogetherAPIError = TogetherAPIError
  ∧ (∃ cause,
       text "API request failed: No content generated by API"
       = text "API request failed: " ++ cause)
  ∧ (∀ response,
       no_choices (text "key") (text "model") (text "prompt") = Ok response →
       choices response = Some [] ∨ choices response = None →
       text "API request failed: No content generated by API"
       = text "API request failed: " ++ text "No content generated by API").
Proof.
  apply (generate_errors_prefixed no_choices (text "prompt") (text "key")
           (text "model")
           (Exn TogetherAPIError
              (text "API request failed: No content generated by API"))).
  vm_compute. reflexivity.
Defined.

(** The profile and headlines of the end-to-end scenario. *)
Lemma compose_deterministic_witness :
  construct_viral_prompt (text "B") (text "P") (text "fintech")
    [text "A"; text "B"; text "C"]
  = construct_viral_prompt (text "B") (text "P") (text "fintech")
      [text "A"; text "B"; text "C"].
Proof. apply compose_deterministic; reflexivity. Defined.

(** * Further properties of the four functions and of [main] *)

(** ** Cleaning a title *)

Lemma py_lstrip_all_space s :
  Forall (λ c, py_isspace c = true) s → py_lstrip s = [].
Proof.
  induction 1 as [|c s Hc _ IH]; simpl; [done |]. by rewrite Hc.
Qed.

Lemma py_strip_nil_iff s :
  py_strip s = [] ↔ Forall (λ c, py_isspace c = true) s.
Proof.
  split.
  - intros H. destruct (py_strip_spec s) as (l & r & Hs & Hl & Hr & _).
    rewrite H in Hs. rewrite Hs. simpl. by apply Forall_app.
  - intros H. unfold py_strip. by rewrite py_lstrip_all_space.
Qed.

Lemma py_lstrip_id s :
  (∀ c, head s = Some c → py_isspace c = false) → py_lstrip s = s.
Proof.
  destruct s as [|c s]; [done |]. intros H. simpl. by rewrite (H c).
Qed.

Lemma py_rstrip_id s :
  (∀ c, last s = Some c → py_isspace c = false) → py_rstrip s = s.
Proof.
  induction s as [|c s IH]; [done |]. intros H. simpl.
  destruct s as [|d s].
  - simpl. by rewrite (H c).
  - rewrite IH; [done |]. intros e He. by apply H.
Qed.

Lemma py_strip_id s :
  (∀ c, head s = Some c → py_isspace c = false) →
  (∀ c, last s = Some c → py_isspace c = false) →
  py_strip s = s.
Proof.
  intros Hh Hl. unfold py_strip. rewrite (py_lstrip_id s Hh).
  by apply py_rstrip_id.
Qed.

Lemma filter_all_space s :
  Forall (λ c, py_isspace c = true) s →
  filter (λ c, py_isspace c = false) s = [].
Proof.
  induction 1 as [|c s Hc _ IH]; [done |].
  rewrite filter_cons. case_decide; [congruence | done].
Qed.

Lemma collapse_runs_visible b s :
  filter (λ c, py_isspace c = false) (collapse_runs b s)
  = filter (λ c, py_isspace c = false) s.
Proof.
  revert b. induction s as [|c s IH]; intros b; [done |]. simpl.
  rewrite (filter_cons _ c s). destruct (py_isspace c) eqn:Hc.
  - case_decide; [done |]. destruct b; [apply IH |].
    rewrite filter_cons. case_decide; [done | apply IH].
  - case_decide; [| done]. rewrite filter_cons.
    case_decide; [| done]. by rewrite IH.
Qed.

Lemma collapse_runs_fixed s :
  (∀ c, c ∈ s → py_isspace c = true → c = 32) →
  (∀ l c d r, s = l ++ c :: d :: r → py_isspace c = true → py_isspace d = false) →
  (∀ c, last s = Some c → py_isspace c = false) →
  collapse_runs false s = s.
Proof.
  induction s as [|c s IH]; intros Hsp Hadj Hlast; [done |].
  assert (IHs : collapse_runs false s = s).
  { apply IH.
    - intros x Hx. apply Hsp. by right.
    - intros l x d r -> Hx. by apply (Hadj (c :: l) x d r).
    - intros x Hx. apply Hlast. destruct s; [done | exact Hx]. }
  simpl. destruct (py_isspace c) eqn:Hc; [| by rewrite IHs].
  rewrite (Hsp c) by (done || by left). f_equal.
  destruct s as [|d s].
  - by rewrite (Hlast c eq_refl) in Hc.
  - pose proof (Hadj [] c d s eq_refl Hc) as Hd.
    simpl in *. rewrite Hd in *. exact IHs.
Qed.

Lemma scraped_headline_is_clean (nd : N → bool)
    (get_feed : str → result (list item)) (industry_keyword : str)
    (max_headlines : Z) (headlines : list str) (h : str) :
  scrape_google_news nd get_feed industry_keyword max_headlines = Ok headlines →
  h ∈ headlines →
  ∃ title_text, h = clean_title nd title_text.
Proof.
  unfold scrape_google_news, try_except.
  destruct (get_feed _) as [items|e]; simpl; [| by destruct (exn_class e)].
  intros [= <-]. rewrite collect_headlines_eq. simpl.
  intros (t & -> & _)%list_elem_of_fmap. by exists t.
Qed.

(** X2. Every headline the fetcher returns neither starts nor ends with
    whitespace, holds no whitespace character but the space, and has no two
    spaces in a row. *)
Theorem fetch_headlines_normalized (nd : N → bool)
    (get_feed : str → result (list item)) (industry_keyword : str)
    (max_headlines : Z) (headlines : list str) (h : str) :
  scrape_google_news nd get_feed industry_keyword max_headlines = Ok headlines →
  h ∈ headlines →
  (∀ c, head h = Some c → py_isspace c = false)
  ∧ (∀ c, last h = Some c → py_isspace c = false)
  ∧ (∀ c, c ∈ h → py_isspace c = true → c = 32)
  ∧ (∀ l c d r, h = l ++ c :: d :: r → py_isspace c = true →
       py_isspace d = false).
Proof.
  intros Hfetch Hh.
  destruct (scraped_headline_is_clean nd get_feed industry_keyword
              max_headlines headlines h Hfetch Hh) as [t ->].
  apply clean_title_normalized.
Qed.

(** X3. A cleaned title is empty exactly when the title is made of
    whitespace only. *)
Theorem clean_title_empty_iff (nd : N → bool) (title_text : str) :
  clean_title nd title_text = []
  ↔ Forall (λ c, py_isspace c = true) title_text.
Proof.
  rewrite clean_title_collapse, <- py_strip_nil_iff.
  destruct (py_strip title_text) as [|c s]; [done |].
  simpl. by destruct (py_isspace c).
Qed.

(** X4. Cleaning a cleaned title changes nothing. *)
Theorem clean_title_idempotent (nd : N → bool) (title_text : str) :
  clean_title nd (clean_title nd title_text) = clean_title nd title_text.
Proof.
  destruct (clean_title_normalized nd title_text) as (Hh & Hl & Hsp & Hadj).
  rewrite (clean_title_collapse nd (clean_title nd title_text)).
  rewrite (py_strip_id _ Hh Hl). by apply collapse_runs_fixed.
Qed.

(** X5. Cleaning removes or replaces whitespace only: the characters that
    are not whitespace come out as they went in, in the same order. *)
Theorem clean_title_keeps_visible (nd : N → bool) (title_text : str) :
  filter (λ c, py_isspace c = false) (clean_title nd title_text)
  = filter (λ c, py_isspace c = false) title_text.
Proof.
  rewrite clean_title_collapse, collapse_runs_visible.
  destruct (py_strip_spec title_text) as (l & r & Hs & Hl & Hr & _).
  rewrite Hs at 2. rewrite !filter_app.
  by rewrite (filter_all_space l Hl), (filter_all_space r Hr), app_nil_r.
Qed.

(** ** The fetcher's failures and empty results *)

(** X1. When the request or the parse of the feed raises, the fetcher
    raises [NewsScraperError] with the message "Failed to fetch news: " for
    a [RequestException] and "Failed to parse news feed: " for anything
    else, followed by the text of the cause; and it raises in no other
    case, and nothing else. *)
Theorem fetch_failure_wrapped (nd : N → bool)
    (get_feed : str → result (list item)) (industry_keyword : str)
    (max_headlines : Z) :
  (∀ cause,
     get_feed (industry_keyword ++ text " industry news") = Raise cause →
     scrape_google_news nd get_feed industry_keyword max_headlines
     = Raise (Exn NewsScraperError
                (match exn_class cause with
                 | RequestException => text "Failed to fetch news: "
                 | _ => text "Failed to parse news feed: "
                 end ++ exn_str cause)))
  ∧ (∀ e,
       scrape_google_news nd get_feed industry_keyword max_headlines = Raise e →
       exn_class e = NewsScraperError
       ∧ ∃ cause,
           get_feed (industry_keyword ++ text " industry news") = Raise cause).
Proof.
  unfold scrape_google_news, try_except. split.
  - intros cause ->. cbn [mbind result_bind]. by destruct cause as [[] msg].
  - intros e. destruct (get_feed _) as [items|cause]; [done |].
    cbn [mbind result_bind]. intros H. split; [| by exists cause].
    destruct cause as [[] msg]; cbn [exn_class] in H; by injection H as <-.
Qed.

(** X6. With a bound that is not negative, the fetcher returns the empty
    list exactly when none of the items within the bound has a title with
    text in it; a feed with no item is one such case, and none is an
    error. *)
Theorem fetch_empty_iff (nd : N → bool)
    (get_feed : str → result (list item)) (industry_keyword : str)
    (max_headlines : Z) (items : list item) :
  (0 ≤ max_headlines)%Z →
  get_feed (industry_keyword ++ text " industry news") = Ok items →
  scrape_google_news nd get_feed industry_keyword max_headlines = Ok []
  ↔ ∀ it, it ∈ take (Z.to_nat max_headlines) items →
          item_title it = None ∨ item_title it = Some [].
Proof.
  intros Hmax Hfeed. unfold scrape_google_news, try_except.
  rewrite Hfeed. cbn [mbind result_bind]. rewrite collect_headlines_eq.
  unfold slice_to. destruct (Z.leb_spec 0 max_headlines); [| lia].
  generalize (take (Z.to_nat max_headlines) items). clear. intros l.
  simpl. split.
  - intros [= H]. apply fmap_nil_inv in H. intros it Hin.
    destruct (item_title it) as [t|] eqn:Ht; [right | by left].
    destruct t as [|c t]; [done |]. exfalso.
    assert (Hkept : (c :: t) ∈ filter (λ t : str, t ≠ []) (omap item_title l)).
    { apply list_elem_of_filter. split; [done |].
      apply list_elem_of_omap. by exists it. }
    rewrite H in Hkept. by apply elem_of_nil in Hkept.
  - intros H.
    assert (filter (λ t : str, t ≠ []) (omap item_title l) = []) as ->; [| done].
    apply elem_of_nil_inv. intros t Ht.
    apply list_elem_of_filter in Ht as [Hne (it & Hin & Hit)%list_elem_of_omap].
    destruct (H it Hin) as [Hnone|Hnil]; congruence.
Qed.

(** ** The generation client's normal return *)

(** X7. The client returns normally exactly when the endpoint answers with
    at least one choice whose first message has a content; what it returns
    is that content stripped, whatever the other choices are. *)
Theorem generate_returns_iff
    (create : str → str → str → result chat_response)
    (prompt api_key model : str) (generated : str) :
  call_together_api create prompt api_key model = Ok generated
  ↔ ∃ content others,
      create api_key model prompt
        = Ok (Response (Some (Choice (Some content) :: others)))
      ∧ generated = py_strip content.
Proof.
  unfold call_together_api, try_except.
  destruct (create api_key model prompt) as [[[[|[[content|]] others]|]]|e];
    cbn [mbind result_bind choices message_content]; split;
    try discriminate; try (by intros (? & ? & [=] & _)).
  - intros [= <-]. by exists content, others.
  - intros (c & o & [= <- <-] & ->). done.
Qed.

(** ** The parser's mapping as a whole *)

Lemma finditer_nil_no_match (nd : N → bool) (content : str) (q : nat) :
  finditer nd true day_pattern content = [] →
  match_at nd true day_pattern content q = None.
Proof.
  intros Hnil.
  pose proof (finditer_scanned nd true day_pattern (day_pattern_nonempty nd) content)
    as Hs.
  rewrite Hnil in Hs. inversion Hs as [p Hall|]; subst.
  destruct (decide (q ≤ length content)%nat) as [Hq|Hq]; [apply Hall; lia |].
  rewrite day_match_at, drop_ge by lia. done.
Qed.

Lemma parse_loop_size (nd : N → bool) (content : str)
    (rest : list re_match) (i : nat) (posts posts' : gmap str str) :
  (∀ j m, rest !! j = Some m →
          finditer nd true day_pattern content !! (i + j)%nat = Some m) →
  parse_loop nd content (finditer nd true day_pattern content) i rest posts
    = Ok posts' →
  (size posts' ≤ size posts + length rest)%nat.
Proof.
  revert i posts. induction rest as [|m rest IH]; intros i posts Hrest; simpl.
  - intros [= <-]. lia.
  - destruct (parse_step_ok nd content i m posts) as (key & _ & ->).
    { rewrite <- (Nat.add_0_r i). by apply Hrest. }
    cbn [mbind result_bind]. intros H. apply IH in H.
    + rewrite map_size_insert in H. destruct (posts !! key); simpl in H; lia.
    + intros j m' Hj. replace (S i + j)%nat with (i + S j)%nat by lia.
      by apply Hrest.
Qed.

(** X8. The keys of the mapping are exactly the digit strings that the
    markers of the text capture, and the mapping has no more entries than
    the text has markers. *)
Theorem parse_keys_are_captures (nd : N → bool) (content : str)
    (posts : gmap str str) :
  parse_generated_content nd content = Ok posts →
  (∀ key, is_Some (posts !! key)
          ↔ ∃ i m, finditer nd true day_pattern content !! i = Some m
                   ∧ group content m 1 = Ok key)
  ∧ (size posts ≤ length (finditer nd true day_pattern content))%nat.
Proof.
  intros Hparse.
  destruct (parse_spec nd content) as (posts' & Hparse' & _ & Hfrom & Hdom).
  rewrite Hparse in Hparse'. injection Hparse' as <-. split.
  - intros key. split.
    + intros [body Hbody]. apply Hfrom in Hbody as (i & m & Hi & Hkey & _).
      by exists i, m.
    + intros (i & m & Hi & Hkey). by apply (Hdom i m).
  - unfold parse_generated_content in Hparse. cbv zeta in Hparse.
    apply parse_loop_size in Hparse; [| done].
    rewrite map_size_empty in Hparse. lia.
Qed.

Lemma parse_nil_iff_no_marker (nd : N → bool) (content : str) :
  parse_generated_content nd content = Ok ∅ ↔ ¬ has_day_marker nd content.
Proof.
  split.
  - intros Hparse (q & r & Hq).
    destruct (finditer nd true day_pattern content) as [|m ms] eqn:Hfind.
    + by rewrite (finditer_nil_no_match nd content q Hfind) in Hq.
    + destruct (parse_spec nd content) as (posts & Hparse' & _ & _ & Hdom).
      rewrite Hparse in Hparse'. injection Hparse' as <-.
      destruct (day_match_facts nd content 0 m) as (n & t & _ & _ & Hkey & _);
        [by rewrite Hfind |].
      destruct (Hdom 0%nat m _ ltac:(by rewrite Hfind) Hkey) as [body Hbody].
      by rewrite lookup_empty in Hbody.
  - intros Hnone. unfold parse_generated_content.
    rewrite (scanned_none nd true day_pattern content 0 _
               (finditer_scanned nd true day_pattern (day_pattern_nonempty nd) content));
      [done |].
    intros q _.
    destruct (match_at nd true day_pattern content q) as [r|] eqn:H; [| done].
    exfalso. apply Hnone. by exists q, r.
Qed.

Lemma parse_nonempty_has_marker (nd : N → bool) (content : str)
    (posts : gmap str str) :
  parse_generated_content nd content = Ok posts → posts ≠ ∅ →
  has_day_marker nd content.
Proof.
  intros Hparse Hne.
  destruct (finditer nd true day_pattern content) as [|m ms] eqn:Hfind.
  - unfold parse_generated_content in Hparse. rewrite Hfind in Hparse.
    simpl in Hparse. congruence.
  - destruct (day_match_facts nd content 0 m) as (n & t & Hmk & _);
      [by rewrite Hfind |].
    exists (m_start m). eexists. by rewrite day_match_at, Hmk.
Qed.

(** X9. The mapping is empty exactly when the text holds no day marker:
    the test [if posts] of the caller tells the two cases apart. *)
Theorem parse_empty_iff (nd : N → bool) (content : str) :
  parse_generated_content nd content = Ok ∅ ↔ ¬ has_day_marker nd content.
Proof. apply parse_nil_iff_no_marker. Qed.

(** X10. Every body of the mapping is a piece of the text, taken as it
    stands, that neither starts nor ends with whitespace. *)
Theorem parse_bodies_are_pieces (nd : N → bool) (content : str)
    (posts : gmap str str) (key body : str) :
  parse_generated_content nd content = Ok posts →
  posts !! key = Some body →
  (∃ before after, content = before ++ body ++ after)
  ∧ (∀ c, head body = Some c → py_isspace c = false)
  ∧ (∀ c, last body = Some c → py_isspace c = false).
Proof.
  intros Hparse Hlook.
  destruct (parse_spec nd content) as (posts' & Hparse' & _ & Hfrom & _).
  rewrite Hparse in Hparse'. injection Hparse' as <-.
  apply Hfrom in Hlook as (i & m & Hi & _ & ->).
  destruct (day_match_facts nd content i m Hi) as (n & t & _ & _ & _ & Hnext & _).
  unfold day_body.
  set (ns := next_start content (finditer nd true day_pattern content) i) in *.
  destruct (py_strip_spec (slice content (m_end m) ns))
    as (lead & trail & Hsplit & _ & _ & Hh & Hl).
  split_and!; [| done | done].
  exists (take (m_end m) content ++ lead), (trail ++ drop ns content).
  rewrite (slice_split content (m_end m) ns) at 1 by lia.
  rewrite Hsplit at 1. by rewrite <- !app_assoc.
Qed.

(** ** Text before the first marker *)

Lemma scan_cons_0 (nd : N → bool) (ic : bool) (ops : list op) pos c s :
  scan nd ic ops 0 pos (c :: s) =
  match sre_match nd ic ops [] pos (c :: s) with
  | Some (e, marks) => Match pos e marks :: scan nd ic ops (e - pos - 1) (S pos) s
  | None => scan nd ic ops 0 (S pos) s
  end.
Proof. simpl. by destruct (sre_match nd ic ops [] pos (c :: s)) as [[??]|]. Qed.

Lemma scan_shift (nd : N → bool) (k : nat) (s : str) skip pos :
  scan nd true day_pattern skip (k + pos) s
  = shift_match k <$> scan nd true day_pattern skip pos s.
Proof.
  revert skip pos. induction s as [|c s IH]; intros skip pos.
  - destruct skip; [| done].
    by rewrite !(scan_end nd true day_pattern (day_pattern_nonempty nd)).
  - destruct skip as [|skip].
    + rewrite !scan_cons_0, !day_pattern_match.
      destruct (day_marker nd (c :: s)) as [[n t]|].
      * rewrite fmap_cons. f_equal.
        -- unfold shift_match. simpl. f_equal; [lia |].
           f_equal; [f_equal; lia | f_equal; f_equal; lia].
        -- replace (S (k + pos)) with (k + S pos)%nat by lia.
           rewrite <- IH. f_equal. lia.
      * replace (S (k + pos)) with (k + S pos)%nat by lia. apply IH.
    + change (scan nd true day_pattern (S skip) (k + pos) (c :: s))
        with (scan nd true day_pattern skip (S (k + pos)) s).
      change (scan nd true day_pattern (S skip) pos (c :: s))
        with (scan nd true day_pattern skip (S pos) s).
      replace (S (k + pos)) with (k + S pos)%nat by lia. apply IH.
Qed.

Lemma scan_preamble (nd : N → bool) (pre content : str) pos :
  Forall (λ c, c ≠ 42) pre →
  scan nd true day_pattern 0 pos (pre ++ content)
  = scan nd true day_pattern 0 (pos + length pre) content.
Proof.
  intros Hpre. revert pos. induction Hpre as [|c pre Hc _ IH]; intros pos.
  - simpl. by rewrite Nat.add_0_r.
  - change ((c :: pre) ++ content) with (c :: (pre ++ content)).
    rewrite scan_cons_0, day_pattern_match.
    destruct (day_marker nd (c :: pre ++ content)) as [[n t]|] eqn:Hm.
    + apply day_marker_elim in Hm as (d & a & y & ds & title & rest & [= -> _] & _).
      done.
    + rewrite IH. f_equal. simpl. lia.
Qed.

Lemma finditer_preamble (nd : N → bool) (pre content : str) :
  Forall (λ c, c ≠ 42) pre →
  finditer nd true day_pattern (pre ++ content)
  = shift_match (length pre) <$> finditer nd true day_pattern content.
Proof.
  intros Hpre. unfold finditer. rewrite (scan_preamble nd pre content 0 Hpre).
  rewrite <- scan_shift. f_equal. lia.
Qed.

Lemma slice_shift {A} (pre s : list A) a b :
  slice (pre ++ s) (length pre + a) (length pre + b) = slice s a b.
Proof.
  unfold slice. rewrite drop_app_add'; [| done]. f_equal. lia.
Qed.

Lemma mark_lookup_shift k g marks :
  mark_lookup g (map (λ gp, (gp.1, k + gp.2)%nat) marks)
  = (λ p, (k + p)%nat) <$> mark_lookup g marks.
Proof.
  induction marks as [|[g' p] marks IH]; [done |]. simpl.
  by destruct (Nat.eqb g g').
Qed.

Lemma group_shift (pre content : str) (m : re_match) g :
  group (pre ++ content) (shift_match (length pre) m) g = group content m g.
Proof.
  unfold group, shift_match. cbn [m_marks]. rewrite !mark_lookup_shift.
  destruct (mark_lookup (2 * g - 2) (m_marks m)) as [a|]; [| done].
  destruct (mark_lookup (2 * g - 1) (m_marks m)) as [b|]; [| done].
  simpl. by rewrite slice_shift.
Qed.

Lemma parse_step_shift (nd : N → bool) (pre content : str)
    (ms : list re_match) i m posts :
  parse_step nd (pre ++ content) (shift_match (length pre) <$> ms) i
    (shift_match (length pre) m) posts
  = parse_step nd content ms i m posts.
Proof.
  unfold parse_step. rewrite group_shift.
  destruct (group content m 1) as [key|e]; [| done]. cbn [mbind result_bind].
  rewrite length_fmap. unfold index. rewrite list_lookup_fmap.
  destruct (i + 1 <? length ms)%nat.
  - destruct (ms !! (i + 1)%nat) as [m'|]; [| done].
    cbn [mbind result_bind fmap option_fmap option_map shift_match m_start m_end].
    by rewrite slice_shift.
  - cbn [mbind result_bind shift_match m_end]. rewrite length_app.
    by rewrite slice_shift.
Qed.

Lemma parse_loop_shift (nd : N → bool) (pre content : str)
    (ms rest : list re_match) i posts :
  parse_loop nd (pre ++ content) (shift_match (length pre) <$> ms) i
    (shift_match (length pre) <$> rest) posts
  = parse_loop nd content ms i rest posts.
Proof.
  revert i posts. induction rest as [|m rest IH]; intros i posts; [done |].
  rewrite fmap_cons. simpl. rewrite parse_step_shift.
  destruct (parse_step nd content ms i m posts) as [posts'|e]; [| done].
  cbn [mbind result_bind]. apply IH.
Qed.

(** X11. Text that stands before the markers and holds no asterisk changes
    nothing: the parser gives the same mapping with it and without it. *)
Theorem parse_ignores_preamble (nd : N → bool) (pre content : str) :
  Forall (λ c, c ≠ 42) pre →
  parse_generated_content nd (pre ++ content)
  = parse_generated_content nd content.
Proof.
  intros Hpre. unfold parse_generated_content. cbv zeta.
  rewrite (finditer_preamble nd pre content Hpre). apply parse_loop_shift.
Qed.

(** ** The case of the word Day *)

(** X12. A marker is recognised whatever the case of the letters of Day:
    a text made of one such marker, with any digits and any title free of
    asterisks (line breaks included), and of a body free of asterisks, is
    parsed into the one entry from the digits to the stripped body. *)
Theorem parse_day_any_case (nd : N → bool) (d a y : N)
    (ds title body : str) :
  (d = 68 ∨ d = 100) → (a = 65 ∨ a = 97) → (y = 89 ∨ y = 121) →
  ds ≠ [] →
  Forall (λ c, py_isdecimal nd c = true) ds →
  Forall (λ c, c ≠ 42) title →
  Forall (λ c, c ≠ 42) body →
  parse_generated_content nd
    ([42; 42; d; a; y; 32] ++ ds ++ [58] ++ title ++ [42; 42] ++ body)
  = Ok {[ ds := py_strip body ]}.
Proof.
  intros Hd Ha Hy Hne Hds Htitle Hbody.
  set (content := [42; 42; d; a; y; 32] ++ ds ++ [58] ++ title ++ [42; 42] ++ body).
  set (e := (0 + 6 + length ds + 1 + length title + 2)%nat).
  set (M := Match 0 e [(1, 0 + 6 + length ds); (0, 0 + 6)]%nat).
  assert (Hmk : day_marker nd content = Some (length ds, length title)).
  { by apply day_marker_intro. }
  assert (Hdrop : drop e content = body).
  { unfold content. rewrite !app_assoc.
    apply drop_app_length'. rewrite !length_app. simpl. unfold e. lia. }
  assert (He : (e ≤ length content)%nat).
  { unfold content, e. rewrite !length_app. simpl. lia. }
  assert (Hfind : finditer nd true day_pattern content = [M]).
  { unfold finditer.
    rewrite (scan_match nd true day_pattern (day_pattern_nonempty nd) 0 content e
               [(1, 0 + 6 + length ds); (0, 0 + 6)]%nat);
      [| by rewrite day_pattern_match, Hmk].
    f_equal. rewrite Nat.sub_0_r.
    apply (scanned_none nd true day_pattern content e).
    - apply scan_scanned; [apply day_pattern_nonempty | done].
    - intros q Hq. rewrite day_match_at.
      replace q with (e + (q - e))%nat by lia.
      rewrite <- drop_drop, Hdrop.
      rewrite day_marker_no_star; [done |]. by apply Forall_drop. }
  destruct (parse_step_ok nd content 0 M ∅) as (key & Hkey & Hstep).
  { by rewrite Hfind. }
  unfold parse_generated_content. cbv zeta.
  assert (Hloop : ∀ ms, ms = [M] →
    parse_loop nd content (finditer nd true day_pattern content) 0 ms ∅
    = Ok (<[key := day_body content (finditer nd true day_pattern content) 0 M]> ∅)).
  { intros ms ->. simpl. by rewrite Hstep. }
  rewrite (Hloop _ Hfind). f_equal.
  assert (key = ds) as ->.
  { unfold group in Hkey. simpl in Hkey. injection Hkey as <-.
    unfold slice, content. simpl.
    replace (length ds - 0)%nat with (length ds) by lia.
    by rewrite drop_0, take_app_length. }
  assert (day_body content (finditer nd true day_pattern content) 0 M
          = py_strip body) as ->.
  { unfold day_body, next_start. rewrite Hfind. simpl m_end. simpl lookup.
    unfold slice. rewrite Hdrop. f_equal. apply take_ge.
    rewrite <- Hdrop, length_drop. lia. }
  apply insert_empty.
Qed.

(** ** Fetched headlines in the prompt *)

Lemma join_lines_newlines (parts : list str) :
  Forall (λ p, 10 ∉ p) parts →
  length (filter (λ c, c = 10) (join_lines parts)) = (length parts - 1)%nat.
Proof.
  assert (Hnone : ∀ p : str, 10 ∉ p → filter (λ c, c = 10) p = []).
  { intros p Hp. apply elem_of_nil_inv. intros c [-> Hc]%list_elem_of_filter.
    done. }
  induction 1 as [|p parts Hp Hparts IH]; [done |].
  destruct parts as [|q parts].
  - simpl. by rewrite (Hnone p Hp).
  - change (join_lines (p :: q :: parts))
      with (p ++ NL ++ join_lines (q :: parts)).
    rewrite !filter_app, !length_app, (Hnone p Hp), IH. simpl. lia.
Qed.

(** X13. The prompt is the five pieces of the template around the
    industry, the bio, the recent post and the bulleted headlines; and each
    headline that the fetcher returned takes exactly one line of the
    bulleted list, since a cleaned title holds no line break. *)
Theorem fetched_headlines_one_line_each (nd : N → bool)
    (get_feed : str → result (list item)) (max_headlines : Z)
    (bio recent_post industry : str) (headlines : list str) :
  scrape_google_news nd get_feed industry max_headlines = Ok headlines →
  construct_viral_prompt bio recent_post industry headlines
  = template_head ++ industry ++ template_bio ++ bio ++ template_voice
      ++ recent_post ++ template_news ++ headlines_text headlines
      ++ template_tail
  ∧ length (filter (λ c, c = 10) (headlines_text headlines))
    = (length headlines - 1)%nat.
Proof.
  intros Hfetch. split; [done |].
  unfold headlines_text. rewrite join_lines_newlines, length_map; [done |].
  apply Forall_map, Forall_forall. intros h Hh.
  destruct (scraped_headline_is_clean nd get_feed industry max_headlines
              headlines h Hfetch Hh) as [t ->].
  destruct (clean_title_normalized nd t) as (_ & _ & Hsp & _).
  change (text "• ") with [8226; 32]. simpl.
  intros [[=]|[[=]|Hin]%elem_of_cons]%elem_of_cons.
  by specialize (Hsp 10 Hin eq_refl).
Qed.

(** ** [int] and [sorted] *)

Section Sorted.

Variable py : interpreter.

Lemma py_int_cases (key : str) :
  (within_limit py key ∧ py_int py key = Ok (int_value py key))
  ∨ ∃ limit,
      int_max_str_digits py = Some limit ∧ (limit < length key)%nat
      ∧ py_int py key
        = Raise (Exn (OtherException "ValueError")
                   (int_limit_error py (length key))).
Proof.
  unfold py_int, within_limit.
  destruct (int_max_str_digits py) as [limit|]; [| by left].
  destruct (Nat.ltb_spec limit (length key)); [right | left].
  - by exists limit.
  - done.
Qed.

(** Either [int] returns for every key, or it raises for one that is over
    the limit. *)
Lemma with_int_keys_cases (keys : list str) :
  (Forall (within_limit py) keys
   ∧ with_int_keys py keys = Ok ((λ key, (int_value py key, key)) <$> keys))
  ∨ ∃ key limit,
      key ∈ keys
      ∧ int_max_str_digits py = Some limit ∧ (limit < length key)%nat
      ∧ with_int_keys py keys
        = Raise (Exn (OtherException "ValueError")
                   (int_limit_error py (length key))).
Proof.
  induction keys as [|key keys IH]; [left; by split |].
  cbn [with_int_keys].
  destruct (py_int_cases key) as [[Hin ->]|(limit & Hlimit & Hlong & ->)];
    cbn [mbind result_bind].
  - destruct IH as [[Hall ->]|(key' & limit & Hkey' & Hlimit & Hlong & ->)];
      cbn [mbind result_bind].
    + left. split; [by constructor | done].
    + right. exists key', limit. split_and!; try done. by right.
  - right. exists key, limit. split_and!; try done. by left.
Qed.

Lemma insert_by_key_perm (x : N * str) (sorted : list (N * str)) :
  insert_by_key x sorted ≡ₚ x :: sorted.
Proof.
  induction sorted as [|y sorted IH]; [done |]. cbn [insert_by_key].
  destruct (y.1 <=? x.1); [| done]. rewrite IH. apply Permutation_swap.
Qed.

Lemma insert_by_key_sorted (x : N * str) (sorted : list (N * str)) :
  StronglySorted (λ a b, a.1 ≤ b.1) sorted →
  StronglySorted (λ a b, a.1 ≤ b.1) (insert_by_key x sorted).
Proof.
  induction 1 as [|y sorted Hs IH Hy]; cbn [insert_by_key].
  - by repeat constructor.
  - destruct (N.leb_spec y.1 x.1) as [Hle|Hlt].
    + constructor; [done |]. rewrite insert_by_key_perm.
      by constructor.
    + constructor; [by constructor |]. constructor; [lia |].
      eapply Forall_impl; [exact Hy |]. simpl. intros z Hz. lia.
Qed.

Lemma insertion_sort_spec (pairs acc : list (N * str)) :
  StronglySorted (λ a b, a.1 ≤ b.1) acc →
  foldl (λ sorted x, insert_by_key x sorted) acc pairs ≡ₚ acc ++ pairs
  ∧ StronglySorted (λ a b, a.1 ≤ b.1)
      (foldl (λ sorted x, insert_by_key x sorted) acc pairs).
Proof.
  revert acc. induction pairs as [|x pairs IH]; intros acc Hacc; simpl.
  - by rewrite app_nil_r.
  - destruct (IH (insert_by_key x acc)) as [Hperm Hsorted];
      [by apply insert_by_key_sorted |].
    split; [| done]. rewrite Hperm, insert_by_key_perm. simpl.
    apply Permutation_middle.
Qed.

Lemma sorted_values (pairs : list (N * str)) :
  Forall (λ p, p.1 = int_value py p.2) pairs →
  StronglySorted (λ a b, a.1 ≤ b.1) pairs →
  StronglySorted (int_le py) pairs.*2.
Proof.
  intros Hval Hsorted.
  induction Hsorted as [|p sorted Hs IH Hp]; simpl; [constructor |].
  apply Forall_cons in Hval as [Hp1 Hval]. constructor; [by apply IH |].
  apply Forall_fmap. rewrite Forall_forall in Hp, Hval.
  apply Forall_forall. intros q Hq. simpl. unfold int_le.
  rewrite <- Hp1, <- (Hval q Hq). by apply Hp.
Qed.

(** What [sorted(keys, key=int)] returns: the keys, in the order of their
    values. *)
Lemma sorted_by_int_cases (keys : list str) :
  (Forall (within_limit py) keys
   ∧ ∃ sorted, sorted_by_int py keys = Ok sorted
               ∧ sorted ≡ₚ keys
               ∧ StronglySorted (int_le py) sorted)
  ∨ ∃ key limit,
      key ∈ keys
      ∧ int_max_str_digits py = Some limit ∧ (limit < length key)%nat
      ∧ sorted_by_int py keys
        = Raise (Exn (OtherException "ValueError")
                   (int_limit_error py (length key))).
Proof.
  unfold sorted_by_int.
  destruct (with_int_keys_cases keys)
    as [[Hall ->]|(key & limit & Hkey & Hlimit & Hlong & ->)];
    cbn [mbind result_bind]; [left | right; by exists key, limit].
  split; [done |]. eexists. split; [done |].
  destruct (insertion_sort_spec ((λ key, (int_value py key, key)) <$> keys) [])
    as [Hperm Hsorted]; [constructor |].
  simpl in Hperm. split.
  - rewrite Hperm, <- list_fmap_compose. simpl. by rewrite list_fmap_id.
  - assert (Hval : Forall (λ p, p.1 = int_value py p.2)
                     (foldl (λ sorted x, insert_by_key x sorted) []
                        ((λ key, (int_value py key, key)) <$> keys))).
    { rewrite Hperm. apply Forall_fmap, Forall_true. done. }
    by apply sorted_values.
Qed.

End Sorted.

(** ** The tabs of the calendar *)

Lemma fill_tabs_ok (posts : gmap str str) (pairs : list (str * str)) :
  (∀ pair, pair ∈ pairs → is_Some (posts !! pair.1)) →
  ∃ tabs,
    fill_tabs posts pairs = Ok tabs
    ∧ tab_day_num <$> tabs = pairs.*1
    ∧ tab_name <$> tabs = pairs.*2
    ∧ Forall (λ t, posts !! tab_day_num t = Some (tab_content t)) tabs.
Proof.
  induction pairs as [|[day_num name] pairs IH]; intros Hin.
  - exists []. by split_and!.
  - destruct IH as (tabs & Hfill & Hdays & Hnames & Hposts).
    { intros pair Hpair. apply Hin. by right. }
    destruct (Hin (day_num, name)) as [post Hpost]; [by left |].
    exists (Tab name day_num post :: tabs). cbn [fill_tabs]. unfold getitem.
    simpl in Hpost. rewrite Hpost. cbn [mbind result_bind]. rewrite Hfill.
    cbn [mbind result_bind]. split_and!; try done.
    + by rewrite !fmap_cons, Hdays.
    + by rewrite !fmap_cons, Hnames.
    + by constructor.
Qed.

Lemma tab_names_lookup (posts : gmap str str) (i : nat) (name : str) :
  tab_names posts !! i = Some name →
  name = text "Day " ++ [48 + N.of_nat (S i)].
Proof.
  unfold tab_names. rewrite list_lookup_fmap.
  destruct (seq 1 _ !! i) as [j|] eqn:Hj; [| done].
  apply lookup_seq in Hj as [-> _]. by intros [= <-].
Qed.

Lemma tab_names_length (posts : gmap str str) :
  length (tab_names posts) = Nat.min 7 (size posts).
Proof. unfold tab_names. rewrite length_fmap, length_seq. lia. Qed.

(** The branch [if posts:] for the keys of [posts]: it fills the tabs, or
    [int] raises for a key over the limit. *)
Lemma calendar_tabs_cases (py : interpreter) (keys : list str)
    (posts : gmap str str) :
  NoDup keys → (∀ key, key ∈ keys ↔ is_Some (posts !! key)) →
  (Forall (within_limit py) keys
   ∧ ∃ sorted tabs,
       calendar_tabs py keys posts = Ok tabs
       ∧ sorted ≡ₚ keys
       ∧ StronglySorted (int_le py) sorted
       ∧ tab_day_num <$> tabs = take 7 sorted
       ∧ length tabs = Nat.min 7 (size posts)
       ∧ ∀ i t, tabs !! i = Some t →
           tab_name t = text "Day " ++ [48 + N.of_nat (S i)]
           ∧ posts !! tab_day_num t = Some (tab_content t))
  ∨ ∃ key limit,
      key ∈ keys
      ∧ int_max_str_digits py = Some limit ∧ (limit < length key)%nat
      ∧ calendar_tabs py keys posts
        = Raise (Exn (OtherException "ValueError")
                   (int_limit_error py (length key))).
Proof.
  intros Hnodup Hkeys. unfold calendar_tabs.
  destruct (sorted_by_int_cases py keys)
    as [[Hall (sorted & -> & Hperm & Hsorted)]|(key & limit & Hkey & Hlimit & Hlong & ->)];
    cbn [mbind result_bind]; [left | right; by exists key, limit].
  split; [done |].
  assert (Hsize : length sorted = size posts).
  { rewrite Hperm, <- size_dom, <- (size_list_to_set (C:=gset str)) by done.
    f_equal. apply set_eq. intros key.
    by rewrite elem_of_dom, elem_of_list_to_set, Hkeys. }
  destruct (fill_tabs_ok posts (zip sorted (tab_names posts)))
    as (tabs & Hfill & Hdays & Hnames & Hposts).
  { intros [day_num name] Hin. apply Hkeys. rewrite <- Hperm.
    by apply elem_of_zip_l in Hin. }
  assert (Hdays' : tab_day_num <$> tabs = take 7 sorted).
  { rewrite Hdays, <- (zip_with_take_l pair sorted (tab_names posts)).
    rewrite fst_zip by (rewrite length_take; lia).
    rewrite tab_names_length.
    destruct (decide (size posts ≤ 7)%nat).
    - rewrite Nat.min_r, !take_ge by lia. done.
    - by rewrite Nat.min_l by lia. }
  exists sorted, tabs. split_and!; try done.
  - rewrite <- (length_fmap tab_day_num), Hdays', length_take. lia.
  - intros i t Ht. split.
    + apply (tab_names_lookup posts).
      assert (Hn : (tab_name <$> tabs) !! i = Some (tab_name t))
        by by rewrite list_lookup_fmap, Ht.
      rewrite Hnames, list_lookup_fmap in Hn.
      destruct (zip sorted (tab_names posts) !! i) as [[d n]|] eqn:Hz; [| done].
      injection Hn as <-.
      apply lookup_zip_with_Some in Hz as (? & ? & [= <- <-] & _ & Hz). done.
    + rewrite Forall_forall in Hposts. apply Hposts.
      by apply list_elem_of_lookup_2 in Ht.
Qed.

(** The keys of the dict, in order, are the keys of the mapping. *)
Lemma posts_keys_spec (nd : N → bool) (content : str) (posts : gmap str str) :
  parse_generated_content nd content = Ok posts →
  NoDup (posts_keys nd content)
  ∧ ∀ key, key ∈ posts_keys nd content ↔ is_Some (posts !! key).
Proof.
  intros Hparse.
  assert (Hfold : ∀ ms acc, NoDup acc →
    NoDup (foldl (λ keys m,
                    match group content m 1 with
                    | Ok day_num =>
                      if bool_decide (day_num ∈ keys) then keys
                      else keys ++ [day_num]
                    | Raise _ => keys
                    end) acc ms)
    ∧ ∀ key,
        key ∈ foldl (λ keys m,
                       match group content m 1 with
                       | Ok day_num =>
                         if bool_decide (day_num ∈ keys) then keys
                         else keys ++ [day_num]
                       | Raise _ => keys
                       end) acc ms
        ↔ key ∈ acc ∨ ∃ i m, ms !! i = Some m ∧ group content m 1 = Ok key).
  { induction ms as [|m ms IH]; intros acc Hacc; simpl.
    - split; [done |]. intros key. split; [by left |].
      by intros [?|(i & m & ? & _)].
    - destruct (IH (match group content m 1 with
                    | Ok day_num =>
                      if bool_decide (day_num ∈ acc) then acc
                      else acc ++ [day_num]
                    | Raise _ => acc
                    end)) as [Hnodup Hin].
      { destruct (group content m 1) as [day_num|]; [| done].
        case_bool_decide; [done |].
        apply NoDup_app. split_and!; [done | | apply NoDup_singleton].
        intros x Hx Hx'. apply list_elem_of_singleton in Hx' as ->. done. }
      split; [done |]. intros key. rewrite Hin. split.
      + intros [Hkey|(i & m' & Hi & Hg)].
        * destruct (group content m 1) as [day_num|] eqn:Hm; [| by left].
          case_bool_decide; [by left |].
          apply elem_of_app in Hkey as [?|Hkey]; [by left |].
          apply list_elem_of_singleton in Hkey as ->.
          right. by exists 0%nat, m.
        * right. by exists (S i), m'.
      + intros [Hkey|(i & m' & Hi & Hg)].
        * left. destruct (group content m 1) as [day_num|]; [| done].
          case_bool_decide; [done |]. apply elem_of_app. by left.
        * destruct i as [|i]; simpl in Hi.
          -- assert (m' = m) as -> by congruence. left. rewrite Hg.
             case_bool_decide; [done |]. apply elem_of_app. right.
             by apply list_elem_of_singleton.
          -- right. by exists i, m'. }
  destruct (Hfold (finditer nd true day_pattern content) [] (NoDup_nil_2 (A:=str)))
    as [Hnodup Hin].
  split; [exact Hnodup |]. intros key. unfold posts_keys. rewrite Hin.
  destruct (parse_spec nd content) as (posts' & Hparse' & _ & Hfrom & Hdom).
  rewrite Hparse in Hparse'. injection Hparse' as <-. split.
  - intros [Hnil|(i & m & Hi & Hg)]; [by apply elem_of_nil in Hnil |].
    by apply (Hdom i m).
  - intros [body Hbody]. right.
    apply Hfrom in Hbody as (i & m & Hi & Hg & _). by exists i, m.
Qed.

(** ** [main] *)

Lemma fields_filled_iff (bio recent_post industry api_key : str) :
  forallb (λ field, bool_decide (field ≠ [])) [bio; recent_post; industry; api_key]
    = true
  ↔ bio ≠ [] ∧ recent_post ≠ [] ∧ industry ≠ [] ∧ api_key ≠ [].
Proof.
  simpl. rewrite !andb_true_iff, !bool_decide_eq_true. tauto.
Qed.

Section MainProperties.

Variable nd : N → bool.
Variable py : interpreter.
Variable get_feed : str → result (list item).
Variable create : str → str → str → result chat_response.

Lemma call_together_api_raises prompt api_key model e :
  call_together_api create prompt api_key model = Raise e →
  exn_class e = TogetherAPIError
  ∧ ∃ cause, exn_str e = text "API request failed: " ++ cause.
Proof.
  unfold call_together_api, try_except.
  destruct (create api_key model prompt) as [[[[|[[content|]] others]|]]|e0];
    cbn [mbind result_bind choices message_content]; try discriminate;
    intros H; injection H as <-; split; try reflexivity; by eexists.
Qed.

Lemma scrape_google_news_raises industry max_headlines e :
  scrape_google_news nd get_feed industry max_headlines = Raise e →
  exn_class e = NewsScraperError.
Proof.
  unfold scrape_google_news, try_except.
  destruct (get_feed _) as [items|cause]; [done |]. cbn [mbind result_bind].
  destruct cause as [[] msg]; cbn [exn_class]; intros H; by injection H as <-.
Qed.

(** The ways the [try] block can go: the fetcher raises; the client raises;
    the mapping is empty; the tabs are filled; or [int] raises for a key
    that is over the limit. *)
Lemma main_try_cases bio recent_post industry api_key model max_headlines :
  (∃ e, scrape_google_news nd get_feed industry max_headlines = Raise e
        ∧ main_try nd py get_feed create bio recent_post industry api_key model
            max_headlines = Raise e)
  ∨ ∃ scraped headlines,
      scrape_google_news nd get_feed industry max_headlines = Ok scraped
      ∧ headlines = (if bool_decide (scraped = [])
                     then fallback_headlines industry else scraped)
      ∧ ((∃ e, call_together_api create
                 (construct_viral_prompt bio recent_post industry headlines)
                 api_key model = Raise e
               ∧ main_try nd py get_feed create bio recent_post industry api_key
                   model max_headlines = Raise e)
         ∨ ∃ generated_content posts,
             call_together_api create
               (construct_viral_prompt bio recent_post industry headlines)
               api_key model = Ok generated_content
             ∧ parse_generated_content nd generated_content = Ok posts
             ∧ ((posts = ∅
                 ∧ main_try nd py get_feed create bio recent_post industry
                     api_key model max_headlines
                   = Ok (Raw_output headlines generated_content))
                ∨ (posts ≠ ∅
                   ∧ (∀ key, is_Some (posts !! key) → within_limit py key)
                   ∧ ∃ sorted tabs,
                       main_try nd py get_feed create bio recent_post industry
                         api_key model max_headlines
                       = Ok (Calendar headlines posts tabs)
                       ∧ NoDup sorted
                       ∧ (∀ key, key ∈ sorted ↔ is_Some (posts !! key))
                       ∧ StronglySorted (int_le py) sorted
                       ∧ tab_day_num <$> tabs = take 7 sorted
                       ∧ length tabs = Nat.min 7 (size posts)
                       ∧ ∀ i t, tabs !! i = Some t →
                           tab_name t = text "Day " ++ [48 + N.of_nat (S i)]
                           ∧ posts !! tab_day_num t = Some (tab_content t))
                ∨ (posts ≠ ∅
                   ∧ ∃ key limit,
                       is_Some (posts !! key)
                       ∧ int_max_str_digits py = Some limit
                       ∧ (limit < length key)%nat
                       ∧ main_try nd py get_feed create bio recent_post
                           industry api_key model max_headlines
                         = Raise (Exn (OtherException "ValueError")
                                    (int_limit_error py (length key)))))).
Proof.
  unfold main_try.
  destruct (scrape_google_news nd get_feed industry max_headlines)
    as [scraped|e]; cbn [mbind result_bind]; [right | left; by exists e].
  eexists scraped, _. split; [done |]. split; [done |].
  destruct (call_together_api create _ api_key model) as [generated|e];
    cbn [mbind result_bind]; [right | left; by exists e].
  destruct (parse_spec nd generated) as (posts & Hparse & _).
  exists generated, posts. rewrite Hparse. cbn [mbind result_bind].
  split_and!; try done.
  destruct (bool_decide_reflect (posts ≠ ∅)) as [Hposts|Hposts];
    [right | left; split; [by apply dec_stable | done]].
  destruct (posts_keys_spec nd generated posts Hparse) as [Hnodup Hkeys].
  destruct (calendar_tabs_cases py (posts_keys nd generated) posts Hnodup Hkeys)
    as [[Hall (sorted & tabs & -> & Hperm & Hsorted & Hdays & Hlen & Htabs)]
       |(key & limit & Hkey & Hlimit & Hlong & ->)];
    cbn [mbind result_bind]; [left | right].
  - split; [done |]. split.
    + intros key Hkey. rewrite Forall_forall in Hall. by apply Hall, Hkeys.
    + exists sorted, tabs. split_and!; try done.
      * by rewrite Hperm.
      * intros key. by rewrite Hperm.
  - split; [done |]. exists key, limit. split_and!; try done. by apply Hkeys.
Qed.

(** X14. [main] stops at the message about required fields exactly when
    the bio, the recent post, the industry or the API key is empty; then
    neither the feed nor the endpoint has a say. *)
Theorem main_missing_fields_iff
    (bio recent_post industry api_key model : str) (max_headlines : Z) :
  main nd py get_feed create bio recent_post industry api_key model
    max_headlines = Missing_fields
  ↔ bio = [] ∨ recent_post = [] ∨ industry = [] ∨ api_key = [].
Proof.
  unfold main.
  destruct (forallb _ _) eqn:Hall; cbn [negb].
  - apply fields_filled_iff in Hall as (H1 & H2 & H3 & H4). split.
    + destruct (main_try_cases bio recent_post industry api_key model max_headlines)
        as [(e & _ & ->)
           |(scraped & headlines & _ & _ &
             [(e & _ & ->)
             |(g & posts & _ & _ &
               [[_ ->]|[(_ & _ & sorted & tabs & -> & _)|(_ & key & limit & _ & _ & _ & ->)]])])].
      * by destruct (exn_class e).
      * by destruct (exn_class e).
      * done.
      * done.
      * done.
    + tauto.
  - split; [| done]. intros _.
    destruct bio, recent_post, industry, api_key; try tauto.
    exfalso. assert (true = false) as [=]. rewrite <- Hall.
    symmetry. by apply fields_filled_iff.
Qed.

(** X15. When the four fields are filled and the feed cannot be fetched or
    parsed, [main] ends on the scraping message, which wraps the cause
    twice; the endpoint is not called and the stand-in headlines are not
    used. *)
Theorem main_feed_failure_ends_run
    (bio recent_post industry api_key model : str) (max_headlines : Z)
    (cause : exception) :
  bio ≠ [] → recent_post ≠ [] → industry ≠ [] → api_key ≠ [] →
  get_feed (industry ++ text " industry news") = Raise cause →
  main nd py get_feed create bio recent_post industry api_key model
    max_headlines
  = Scraping_issue
      (text "📰 News scraping encountered an issue: "
         ++ match exn_class cause with
            | RequestException => text "Failed to fetch news: "
            | _ => text "Failed to parse news feed: "
            end ++ exn_str cause).
Proof.
  intros H1 H2 H3 H4 Hfeed. unfold main.
  rewrite (proj2 (fields_filled_iff bio recent_post industry api_key))
    by done. cbn [negb].
  unfold main_try, scrape_google_news, try_except. rewrite Hfeed.
  cbn [mbind result_bind].
  by destruct cause as [[] msg].
Qed.

(** X16. When [main] reaches the calendar or the raw output, the headlines
    it used are never the empty list: they are what the fetcher returned,
    or the three stand-ins built from the industry when it returned none;
    and it is with them that the prompt sent to the endpoint was built. *)
Theorem main_headlines_never_empty
    (bio recent_post industry api_key model : str) (max_headlines : Z)
    (shown : screen) (headlines : list str) :
  main nd py get_feed create bio recent_post industry api_key model
    max_headlines = shown →
  (∃ posts tabs, shown = Calendar headlines posts tabs)
  ∨ (∃ generated_content, shown = Raw_output headlines generated_content) →
  headlines ≠ []
  ∧ (∃ scraped,
       scrape_google_news nd get_feed industry max_headlines = Ok scraped
       ∧ headlines = if bool_decide (scraped = [])
                     then fallback_headlines industry else scraped)
  ∧ (∃ generated_content,
       call_together_api create
         (construct_viral_prompt bio recent_post industry headlines)
         api_key model = Ok generated_content).
Proof.
  unfold main. intros Hmain Hshown.
  destruct (negb _); [destruct Hshown as [(? & ? & ->)|[? ->]]; discriminate |].
  destruct (main_try_cases bio recent_post industry api_key model max_headlines)
    as [(e & _ & Htry)
       |(scraped & hs & Hscrape & Hhs &
         [(e & _ & Htry)
         |(g & posts & Hcall & _ &
           [[_ Htry]|[(_ & _ & sorted & tabs & Htry & _)|(_ & key & limit & _ & _ & _ & Htry)]])])];
    rewrite Htry in Hmain.
  - destruct (exn_class e), Hshown as [(? & ? & ->)|[? ->]]; discriminate.
  - destruct (exn_class e), Hshown as [(? & ? & ->)|[? ->]]; discriminate.
  - assert (headlines = hs) as ->
      by (destruct Hshown as [(? & ? & ->)|[? ->]]; congruence).
    split_and!; [| by exists scraped | by exists g].
    rewrite Hhs.
    destruct (bool_decide_reflect (scraped = [])); [discriminate | done].
  - assert (headlines = hs) as ->
      by (destruct Hshown as [(? & ? & ->)|[? ->]]; congruence).
    split_and!; [| by exists scraped | by exists g].
    rewrite Hhs.
    destruct (bool_decide_reflect (scraped = [])); [discriminate | done].
  - destruct Hshown as [(? & ? & ->)|[? ->]]; discriminate.
Qed.

(** X17. [main] shows the raw output exactly for a generated text with no
    day marker in it, and the calendar, with the parser's mapping, which is
    then not empty, for a text that has one. *)
Theorem main_calendar_or_raw
    (bio recent_post industry api_key model : str) (max_headlines : Z)
    (headlines : list str) :
  (∀ generated_content,
     main nd py get_feed create bio recent_post industry api_key model
       max_headlines = Raw_output headlines generated_content →
     call_together_api create
       (construct_viral_prompt bio recent_post industry headlines)
       api_key model = Ok generated_content
     ∧ ¬ has_day_marker nd generated_content)
  ∧ (∀ posts tabs,
       main nd py get_feed create bio recent_post industry api_key model
         max_headlines = Calendar headlines posts tabs →
       posts ≠ ∅
       ∧ ∃ generated_content,
           call_together_api create
             (construct_viral_prompt bio recent_post industry headlines)
             api_key model = Ok generated_content
           ∧ parse_generated_content nd generated_content = Ok posts
           ∧ has_day_marker nd generated_content).
Proof.
  unfold main. destruct (negb _); [by split |].
  destruct (main_try_cases bio recent_post industry api_key model max_headlines)
    as [(e & _ & ->)
       |(scraped & hs & Hscrape & Hhs &
         [(e & _ & ->)
         |(g & posts & Hcall & Hparse &
           [[Hposts ->]|[(Hposts & _ & sorted & tabs & -> & _)|(_ & key & limit & _ & _ & _ & ->)]])])].
  - split; intros; by destruct (exn_class e).
  - split; intros; by destruct (exn_class e).
  - split; [| done]. intros g' [= <- <-]. split; [done |].
    apply parse_nil_iff_no_marker. by rewrite Hparse, Hposts.
  - split; [done |]. intros posts' tabs' [= <- <- <-]. split; [done |].
    exists g. split_and!; [done | done |].
    by apply (parse_nonempty_has_marker nd g posts).
  - by split.
Qed.

(** X18. [main] ends on the message for unexpected errors exactly when the
    reply of the client has a day marker whose digits are more than the
    interpreter's limit for [int]: sorting the keys then raises
    [ValueError], which only the last [except] clause takes. Nothing else
    gets there: what the fetcher raises is a [NewsScraperError], what the
    client raises is a [TogetherAPIError], and the parser raises nothing. A
    failed generation is reported with both prefixes before the cause. *)
Theorem main_failures_are_reported
    (bio recent_post industry api_key model : str) (max_headlines : Z) :
  (∀ message,
     main nd py get_feed create bio recent_post industry api_key model
       max_headlines = Unexpected_error message →
     ∃ headlines generated_content posts key limit,
       call_together_api create
         (construct_viral_prompt bio recent_post industry headlines)
         api_key model = Ok generated_content
       ∧ parse_generated_content nd generated_content = Ok posts
       ∧ is_Some (posts !! key)
       ∧ int_max_str_digits py = Some limit
       ∧ (limit < length key)%nat
       ∧ message = text "⚠️ An unexpected error occurred: "
                     ++ int_limit_error py (length key))
  ∧ (∀ scraped generated_content posts key limit,
       bio ≠ [] → recent_post ≠ [] → industry ≠ [] → api_key ≠ [] →
       scrape_google_news nd get_feed industry max_headlines = Ok scraped →
       call_together_api create
         (construct_viral_prompt bio recent_post industry
            (if bool_decide (scraped = [])
             then fallback_headlines industry else scraped))
         api_key model = Ok generated_content →
       parse_generated_content nd generated_content = Ok posts →
       is_Some (posts !! key) →
       int_max_str_digits py = Some limit →
       (limit < length key)%nat →
       ∃ message,
         main nd py get_feed create bio recent_post industry api_key model
           max_headlines = Unexpected_error message)
  ∧ (∀ message,
       main nd py get_feed create bio recent_post industry api_key model
         max_headlines = Generation_failed message →
       ∃ cause,
         message = text "🤖 Content generation failed: "
                     ++ text "API request failed: " ++ cause).
Proof.
  unfold main.
  destruct (main_try_cases bio recent_post industry api_key model max_headlines)
    as [(e & Hscrape & ->)
       |(scraped & hs & Hscrape & Hhs &
         [(e & Hcall & ->)
         |(g & posts & Hcall & Hparse &
           [[Hposts ->]|[(_ & Hall & sorted & tabs & -> & _)|(_ & key & limit & Hkey & Hlimit & Hlong & ->)]])])].
  - rewrite (scrape_google_news_raises _ _ _ Hscrape). split_and!.
    + intros message. by destruct (negb _).
    + intros scraped g posts key limit _ _ _ _ Hscrape'. congruence.
    + intros message. by destruct (negb _).
  - subst hs. destruct (call_together_api_raises _ _ _ _ Hcall) as [Hclass [cause Hstr]].
    rewrite Hclass, Hstr. split_and!.
    + intros message. by destruct (negb _).
    + intros scraped' g posts key limit _ _ _ _ Hscrape' Hcall'.
      rewrite Hscrape in Hscrape'. injection Hscrape' as <-. congruence.
    + intros message. destruct (negb _); [done |].
      intros [= <-]. by exists cause.
  - subst hs. split_and!.
    + intros message. by destruct (negb _).
    + intros scraped' g' posts' key limit _ _ _ _ Hscrape' Hcall' Hparse' Hkey.
      rewrite Hscrape in Hscrape'. injection Hscrape' as <-.
      rewrite Hcall in Hcall'. injection Hcall' as <-.
      rewrite Hparse in Hparse'. injection Hparse' as <-.
      rewrite Hposts, lookup_empty in Hkey. by destruct Hkey.
    + intros message. by destruct (negb _).
  - subst hs. split_and!.
    + intros message. by destruct (negb _).
    + intros scraped' g' posts' key limit _ _ _ _ Hscrape' Hcall' Hparse' Hkey
        Hlimit Hlong.
      rewrite Hscrape in Hscrape'. injection Hscrape' as <-.
      rewrite Hcall in Hcall'. injection Hcall' as <-.
      rewrite Hparse in Hparse'. injection Hparse' as <-.
      apply Hall in Hkey. unfold within_limit in Hkey.
      rewrite Hlimit in Hkey. lia.
    + intros message. by destruct (negb _).
  - subst hs. cbn [exn_class exn_str]. split_and!.
    + intros message. destruct (negb _); [done |]. intros [= <-].
      by eexists _, g, posts, key, limit.
    + intros scraped' g' posts' key' limit' H1 H2 H3 H4 _ _ _ _ _ _.
      rewrite (proj2 (fields_filled_iff bio recent_post industry api_key))
        by done.
      by eexists.
    + intros message. by destruct (negb _).
Qed.

End MainProperties.

(** ** Well-formed replies *)

Section WellFormed.

Variable nd : N → bool.

Lemma render_entry_app digits title body (rest : str) :
  render_entry (digits, title, body) ++ rest
  = 42 :: 42 :: 68 :: 97 :: 121 :: 32
      :: digits ++ 58 :: title ++ 42 :: 42 :: body ++ rest.
Proof.
  unfold render_entry.
  change (text "**Day ") with [42; 42; 68; 97; 121; 32].
  change (text ":") with [58]. change (text "**") with [42; 42].
  rewrite <- !app_assoc. simpl. by rewrite <- ?app_assoc.
Qed.

Lemma render_entry_length digits title body :
  length (render_entry (digits, title, body))
  = (6 + length digits + 1 + length title + 2 + length body)%nat.
Proof.
  rewrite <- (app_nil_r (render_entry _)), render_entry_app.
  rewrite app_nil_r. simpl. rewrite !length_app. simpl. rewrite !length_app.
  simpl. lia.
Qed.

Lemma drop_marker (d a y : N) (digits title tail : str) :
  drop (6 + length digits + 1 + length title + 2)
    (42 :: 42 :: d :: a :: y :: 32 :: digits ++ 58 :: title ++ 42 :: 42 :: tail)
  = tail.
Proof.
  replace (6 + length digits + 1 + length title + 2)%nat
    with (6 + (length digits + (1 + (length title + 2))))%nat by lia.
  simpl drop. rewrite drop_app_add'; [| done]. simpl drop.
  by rewrite drop_app_add'.
Qed.

Lemma finditer_render_cons digits title body (rest : str) :
  well_formed_entry nd (digits, title, body) →
  finditer nd true day_pattern (render_entry (digits, title, body) ++ rest)
  = Match 0 (6 + length digits + 1 + length title + 2)
      [(1, 6 + length digits); (0, 6)]%nat
    :: (shift_match (length (render_entry (digits, title, body)))
          <$> finditer nd true day_pattern rest).
Proof.
  intros (Hne & Hds & Htitle & Hbody).
  rewrite render_entry_length, render_entry_app.
  set (e := (6 + length digits + 1 + length title + 2)%nat).
  unfold finditer.
  rewrite (scan_match nd true day_pattern (day_pattern_nonempty nd) 0 _ e
             [(1, 6 + length digits); (0, 6)]%nat).
  - f_equal. rewrite Nat.sub_0_r. unfold e. rewrite drop_marker.
    rewrite (scan_preamble nd body rest _ Hbody).
    rewrite <- scan_shift. f_equal. lia.
  - rewrite day_pattern_match, day_marker_intro by auto.
    unfold e. do 2 f_equal; lia.
Qed.

Lemma parse_step_tail content m0 dm i m posts :
  parse_step nd content (m0 :: dm) (S i) m posts
  = parse_step nd content dm i m posts.
Proof. done. Qed.

Lemma parse_loop_tail content m0 dm rest i posts :
  parse_loop nd content (m0 :: dm) (S i) rest posts
  = parse_loop nd content dm i rest posts.
Proof.
  revert i posts. induction rest as [|m rest IH]; intros i posts; [done |].
  simpl. rewrite parse_step_tail.
  destruct (parse_step nd content dm i m posts); [| done].
  cbn [mbind result_bind]. apply IH.
Qed.

Lemma parse_loop_render entries posts :
  Forall (well_formed_entry nd) entries →
  parse_loop nd (render_calendar entries)
    (finditer nd true day_pattern (render_calendar entries)) 0
    (finditer nd true day_pattern (render_calendar entries)) posts
  = Ok (foldl (λ posts entry, <[entry.1.1 := py_strip entry.2]> posts)
          posts entries).
Proof.
  intros Hwf. revert posts.
  induction Hwf as [|[[digits title] body] entries Hen Hes IH]; intros posts.
  - change (render_calendar []) with ([] : str). unfold finditer.
    by rewrite (scan_end nd true day_pattern (day_pattern_nonempty nd)).
  - change (render_calendar ((digits, title, body) :: entries))
      with (render_entry (digits, title, body) ++ render_calendar entries).
    set (doc := render_entry (digits, title, body) ++ render_calendar entries).
    set (k := length (render_entry (digits, title, body))).
    set (e := (6 + length digits + 1 + length title + 2)%nat).
    set (M := Match 0 e [(1, 6 + length digits); (0, 6)]%nat).
    set (ms := finditer nd true day_pattern (render_calendar entries)).
    assert (Hfind : finditer nd true day_pattern doc = M :: (shift_match k <$> ms)).
    { by apply finditer_render_cons. }
    assert (Hk : k = (e + length body)%nat).
    { unfold k, e. apply render_entry_length. }
    assert (Hnext : next_start doc (finditer nd true day_pattern doc) 0 = k).
    { unfold next_start. rewrite Hfind. simpl lookup.
      destruct entries as [|[[ds' title'] body'] entries'].
      - unfold ms. change (render_calendar []) with ([] : str).
        unfold finditer at 1.
        rewrite (scan_end nd true day_pattern (day_pattern_nonempty nd)).
        simpl. unfold doc. change (render_calendar []) with ([] : str).
        by rewrite app_nil_r.
      - unfold ms.
        change (render_calendar ((ds', title', body') :: entries'))
          with (render_entry (ds', title', body') ++ render_calendar entries').
        rewrite finditer_render_cons by (by inversion Hes).
        simpl. lia. }
    destruct (parse_step_ok nd doc 0 M posts) as (key & Hkey & Hstep).
    { by rewrite Hfind. }
    assert (Hdoc : doc = 42 :: 42 :: 68 :: 97 :: 121 :: 32 :: digits ++ 58 :: title
                           ++ 42 :: 42 :: body ++ render_calendar entries).
    { apply render_entry_app. }
    assert (key = digits) as ->.
    { unfold group in Hkey. simpl in Hkey. injection Hkey as <-.
      unfold slice. rewrite Hdoc. simpl.
      replace (length digits - 0)%nat with (length digits) by lia.
      by rewrite drop_0, take_app_length. }
    assert (Hbody : day_body doc (finditer nd true day_pattern doc) 0 M
                    = py_strip body).
    { unfold day_body. rewrite Hnext. simpl m_end. f_equal.
      unfold slice. rewrite Hk.
      replace (e + length body - e)%nat with (length body) by lia.
      rewrite Hdoc. unfold e. rewrite drop_marker.
      by rewrite take_app_length. }
    rewrite Hbody in Hstep.
    assert (Hloop : ∀ rest, rest = M :: (shift_match k <$> ms) →
      parse_loop nd doc (finditer nd true day_pattern doc) 0 rest posts
      = parse_loop nd doc (finditer nd true day_pattern doc) 1
          (shift_match k <$> ms) (<[digits := py_strip body]> posts)).
    { intros rest ->. simpl. by rewrite Hstep. }
    rewrite (Hloop _ Hfind), Hfind, parse_loop_tail.
    unfold doc, k. rewrite parse_loop_shift. fold ms. apply IH.
Qed.

(** X19. A reply in the format the prompt asks for is parsed into the
    entries it was made of: one key per digit string, as written, with the
    stripped body of the last entry that has these digits. *)
Theorem parse_render_calendar (entries : list (str * str * str)) :
  Forall (well_formed_entry nd) entries →
  parse_generated_content nd (render_calendar entries)
  = Ok (calendar_of entries).
Proof. intros Hwf. by apply parse_loop_render. Qed.

End WellFormed.

Lemma render_calendar_has_marker (nd : N → bool)
    (entries : list (str * str * str)) :
  entries ≠ [] → Forall (well_formed_entry nd) entries →
  has_day_marker nd (render_calendar entries).
Proof.
  intros Hne Hwf. destruct Hwf as [|[[digits title] body] entries Hen _]; [done |].
  destruct Hen as (Hd & Hds & Htitle & _).
  change (render_calendar ((digits, title, body) :: entries))
    with (render_entry (digits, title, body) ++ render_calendar entries).
  exists 0%nat. eexists.
  rewrite day_match_at, drop_0, render_entry_app, day_marker_intro by auto.
  done.
Qed.

Lemma calendar_of_lookup (entries : list (str * str * str)) (key : str) :
  is_Some (calendar_of entries !! key) →
  ∃ entry, entry ∈ entries ∧ entry.1.1 = key.
Proof.
  unfold calendar_of.
  assert (H : ∀ posts : gmap str str,
    is_Some (foldl (λ posts entry, <[entry.1.1 := py_strip entry.2]> posts)
               posts entries !! key) →
    is_Some (posts !! key) ∨ ∃ entry, entry ∈ entries ∧ entry.1.1 = key).
  { induction entries as [|entry entries IH]; intros posts; simpl; [by left |].
    intros Hkey. apply IH in Hkey as [Hkey|(entry' & Hin & Hk)].
    - apply lookup_insert_is_Some in Hkey as [Hkey|[_ Hkey]]; [| by left].
      right. exists entry. split; [by left | done].
    - right. exists entry'. split; [by right | done]. }
  intros Hkey. apply H in Hkey as [Hkey|Hkey]; [| done].
  rewrite lookup_empty in Hkey. by destruct Hkey.
Qed.

(** X20. End to end: when the four fields are filled, the feed is fetched
    and the client returns a reply in the format the prompt asks for, with
    at least one entry and no digit string over the interpreter's limit for
    [int], [main] shows the calendar made of these entries, beside the
    headlines it used. The tabs are those of the first seven keys in
    ascending order of their values: the tab at index [i] is named Day
    [i + 1], whatever its key, and holds the post stored under its key. *)
Theorem main_shows_calendar (nd : N → bool) (py : interpreter)
    (get_feed : str → result (list item))
    (create : str → str → str → result chat_response)
    (bio recent_post industry api_key model : str) (max_headlines : Z)
    (scraped headlines : list str) (entries : list (str * str * str)) :
  bio ≠ [] → recent_post ≠ [] → industry ≠ [] → api_key ≠ [] →
  scrape_google_news nd get_feed industry max_headlines = Ok scraped →
  headlines = (if bool_decide (scraped = [])
               then fallback_headlines industry else scraped) →
  call_together_api create
    (construct_viral_prompt bio recent_post industry headlines) api_key model
    = Ok (render_calendar entries) →
  entries ≠ [] →
  Forall (well_formed_entry nd) entries →
  Forall (λ entry, within_limit py entry.1.1) entries →
  ∃ sorted tabs,
    main nd py get_feed create bio recent_post industry api_key model
      max_headlines
    = Calendar headlines (calendar_of entries) tabs
    ∧ NoDup sorted
    ∧ (∀ key, key ∈ sorted ↔ is_Some (calendar_of entries !! key))
    ∧ StronglySorted (int_le py) sorted
    ∧ tab_day_num <$> tabs = take 7 sorted
    ∧ length tabs = Nat.min 7 (size (calendar_of entries))
    ∧ ∀ i t, tabs !! i = Some t →
        tab_name t = text "Day " ++ [48 + N.of_nat (S i)]
        ∧ calendar_of entries !! tab_day_num t = Some (tab_content t).
Proof.
  intros H1 H2 H3 H4 Hscrape -> Hcall Hne Hwf Hlimit. unfold main.
  rewrite (proj2 (fields_filled_iff bio recent_post industry api_key))
    by done. cbn [negb].
  unfold main_try. rewrite Hscrape. cbn [mbind result_bind]. rewrite Hcall.
  cbn [mbind result_bind].
  assert (Hparse : parse_generated_content nd (render_calendar entries)
                   = Ok (calendar_of entries)) by by apply parse_loop_render.
  rewrite Hparse. cbn [mbind result_bind].
  destruct (bool_decide_reflect (calendar_of entries ≠ ∅)) as [_|Hempty].
  - destruct (posts_keys_spec nd _ _ Hparse) as [Hnodup Hkeys].
    destruct (calendar_tabs_cases py _ _ Hnodup Hkeys)
      as [[_ (sorted & tabs & -> & Hperm & Hsorted & Hdays & Hlen & Htabs)]
         |(key & limit & Hkey & Hsome & Hlong & _)].
    + exists sorted, tabs. cbn [mbind result_bind]. split_and!; try done.
      * by rewrite Hperm.
      * intros key. by rewrite Hperm.
    + exfalso. apply Hkeys, calendar_of_lookup in Hkey as (entry & Hin & <-).
      rewrite Forall_forall in Hlimit. apply Hlimit in Hin.
      unfold within_limit in Hin. rewrite Hsome in Hin. lia.
  - exfalso. apply dec_stable in Hempty. rewrite Hempty in Hparse.
    apply parse_nil_iff_no_marker in Hparse.
    by apply Hparse, render_calendar_has_marker.
Qed.

(** ** Instances of the further properties *)

Lemma fetch_failure_wrapped_witness :
  scrape_google_news ascii_digits unreachable_feed (text "fintech") 10
  = Raise (Exn NewsScraperError
             (text "Failed to fetch news: " ++ text "timed out")).
Proof.
  apply (proj1 (fetch_failure_wrapped ascii_digits unreachable_feed
                  (text "fintech") 10)
           (Exn RequestException (text "timed out"))).
  reflexivity.
Defined.

Lemma fetch_headlines_normalized_witness :
  (∀ c, head (text "A b c") = Some c → py_isspace c = false)
  ∧ (∀ c, last (text "A b c") = Some c → py_isspace c = false)
  ∧ (∀ c, c ∈ text "A b c" → py_isspace c = true → c = 32)
  ∧ (∀ l c d r, text "A b c" = l ++ c :: d :: r → py_isspace c = true →
       py_isspace d = false).
Proof.
  apply (fetch_headlines_normalized ascii_digits (λ _, Ok three_items)
           (text "fintech") 2 [text "A b c"]).
  - vm_compute. reflexivity.
  - apply list_elem_of_singleton. reflexivity.
Defined.

Lemma fetch_empty_iff_witness :
  scrape_google_news ascii_digits (λ _, Ok untitled_items) (text "fintech") 10
  = Ok [].
Proof.
  apply (fetch_empty_iff ascii_digits (λ _, Ok untitled_items) (text "fintech")
           10 untitled_items).
  - lia.
  - reflexivity.
  - intros it Hin.
    change (take (Z.to_nat 10) untitled_items)
      with [Item None; Item (Some [])] in Hin.
    apply elem_of_cons in Hin as [->|Hin]; [by left |].
    apply list_elem_of_singleton in Hin as ->. by right.
Defined.

(** On [blank_title_feed] the bound 10 covers an item whose title is not
    empty, and the fetcher does not return the empty list. *)
Example fetch_not_empty :
  scrape_google_news ascii_digits (λ _, Ok blank_title_feed) (text "fintech") 10
  ≠ Ok [].
Proof. vm_compute. discriminate. Qed.

Lemma parse_keys_are_captures_witness :
  (∀ key,
     is_Some (({[ text "1" := text "second" ]} : gmap str str) !! key)
     ↔ ∃ i m, finditer ascii_digits true day_pattern same_key_twice !! i = Some m
              ∧ group same_key_twice m 1 = Ok key)
  ∧ (size ({[ text "1" := text "second" ]} : gmap str str)
     ≤ length (finditer ascii_digits true day_pattern same_key_twice))%nat.
Proof.
  apply (parse_keys_are_captures ascii_digits same_key_twice).
  vm_compute. reflexivity.
Defined.

Lemma parse_bodies_are_pieces_witness :
  (∃ before after, two_days = before ++ text "Hello" ++ after)
  ∧ (∀ c, head (text "Hello") = Some c → py_isspace c = false)
  ∧ (∀ c, last (text "Hello") = Some c → py_isspace c = false).
Proof.
  apply (parse_bodies_are_pieces ascii_digits two_days
           {[ text "1" := text "Hello"; text "2" := text "World" ]} (text "1")).
  - vm_compute. reflexivity.
  - vm_compute. reflexivity.
Defined.

Lemma parse_ignores_preamble_witness :
  parse_generated_content ascii_digits (text "Here is your plan: " ++ two_days)
  = parse_generated_content ascii_digits two_days.
Proof.
  apply parse_ignores_preamble. eval_text.
  repeat (constructor; [discriminate |]). constructor.
Defined.

Lemma parse_day_any_case_witness :
  parse_generated_content ascii_digits
    ([42; 42; 100; 65; 121; 32] ++ text "3" ++ [58] ++ text " plan"
       ++ [42; 42] ++ text " Post ")
  = Ok {[ text "3" := py_strip (text " Post ") ]}.
Proof.
  apply parse_day_any_case; try (by left); try (by right); eval_text.
  - discriminate.
  - repeat (constructor; [reflexivity |]). constructor.
  - repeat (constructor; [discriminate |]). constructor.
  - repeat (constructor; [discriminate |]). constructor.
Defined.

Lemma fetched_headlines_one_line_each_witness :
  construct_viral_prompt (text "B") (text "P") (text "fintech")
    [text "A"; text "B"; text "C"]
  = template_head ++ text "fintech" ++ template_bio ++ text "B"
      ++ template_voice ++ text "P" ++ template_news
      ++ headlines_text [text "A"; text "B"; text "C"] ++ template_tail
  ∧ length (filter (λ c, c = 10) (headlines_text [text "A"; text "B"; text "C"]))
    = (length [text "A"; text "B"; text "C"] - 1)%nat.
Proof.
  apply (fetched_headlines_one_line_each ascii_digits (λ _, Ok abc_items) 10).
  vm_compute. reflexivity.
Defined.

Lemma main_feed_failure_ends_run_witness :
  main ascii_digits default_interpreter unreachable_feed two_days_endpoint
    (text "B") (text "P") (text "fintech") (text "key") (text "model") 12
  = Scraping_issue
      (text "📰 News scraping encountered an issue: "
         ++ match exn_class (Exn RequestException (text "timed out")) with
            | RequestException => text "Failed to fetch news: "
            | _ => text "Failed to parse news feed: "
            end ++ exn_str (Exn RequestException (text "timed out"))).
Proof.
  apply main_feed_failure_ends_run; try (eval_text; discriminate).
  reflexivity.
Defined.

Lemma main_headlines_never_empty_witness :
  fallback_headlines (text "fintech") ≠ []
  ∧ (∃ scraped,
       scrape_google_news ascii_digits empty_feed (text "fintech") 12 = Ok scraped
       ∧ fallback_headlines (text "fintech")
         = if bool_decide (scraped = [])
           then fallback_headlines (text "fintech") else scraped)
  ∧ (∃ generated_content,
       call_together_api plain_endpoint
         (construct_viral_prompt (text "B") (text "P") (text "fintech")
            (fallback_headlines (text "fintech")))
         (text "key") (text "model") = Ok generated_content).
Proof.
  apply (main_headlines_never_empty ascii_digits default_interpreter empty_feed
           plain_endpoint
           (text "B") (text "P") (text "fintech") (text "key") (text "model") 12
           (Raw_output (fallback_headlines (text "fintech"))
              (text "no headings here"))).
  - vm_compute. reflexivity.
  - right. by eexists.
Defined.

Lemma parse_render_calendar_witness :
  parse_generated_content ascii_digits (render_calendar two_entries)
  = Ok (calendar_of two_entries).
Proof.
  apply parse_render_calendar. unfold two_entries, NL. eval_text.
  repeat (constructor;
          [split_and!; [discriminate | | |];
           repeat (constructor; [reflexivity || discriminate |]); constructor |]).
  constructor.
Defined.

Lemma main_shows_calendar_witness :
  ∃ sorted tabs,
    main ascii_digits default_interpreter (λ _, Ok abc_items) two_days_endpoint
      (text "B") (text "P") (text "fintech") (text "key") (text "model") 12
    = Calendar [text "A"; text "B"; text "C"] (calendar_of two_entries) tabs
    ∧ NoDup sorted
    ∧ (∀ key, key ∈ sorted ↔ is_Some (calendar_of two_entries !! key))
    ∧ StronglySorted (int_le default_interpreter) sorted
    ∧ tab_day_num <$> tabs = take 7 sorted
    ∧ length tabs = Nat.min 7 (size (calendar_of two_entries))
    ∧ ∀ i t, tabs !! i = Some t →
        tab_name t = text "Day " ++ [48 + N.of_nat (S i)]
        ∧ calendar_of two_entries !! tab_day_num t = Some (tab_content t).
Proof.
  apply (main_shows_calendar ascii_digits default_interpreter
           (λ _, Ok abc_items) two_days_endpoint
           (text "B") (text "P") (text "fintech") (text "key") (text "model") 12
           [text "A"; text "B"; text "C"]).
  - eval_text. discriminate.
  - eval_text. discriminate.
  - eval_text. discriminate.
  - eval_text. discriminate.
  - vm_compute. reflexivity.
  - vm_compute. reflexivity.
  - vm_compute. reflexivity.
  - discriminate.
  - unfold two_entries, NL. eval_text.
    repeat (constructor;
            [split_and!; [discriminate | | |];
             repeat (constructor; [reflexivity || discriminate |]); constructor |]).
    constructor.
  - unfold two_entries, within_limit. eval_text.
    repeat (constructor; [simpl; lia |]). constructor.
Defined.

Lemma main_failures_are_reported_witness :
  ∃ headlines generated_content posts key limit,
    call_together_api long_key_endpoint
      (construct_viral_prompt (text "B") (text "P") (text "fintech") headlines)
      (text "key") (text "model") = Ok generated_content
    ∧ parse_generated_content ascii_digits generated_content = Ok posts
    ∧ is_Some (posts !! key)
    ∧ int_max_str_digits default_interpreter = Some limit
    ∧ (limit < length key)%nat
    ∧ text "⚠️ An unexpected error occurred: Exceeds the limit (4300 digits) for integer string conversion: value has 4301 digits; use sys.set_int_max_str_digits() to increase the limit"
      = text "⚠️ An unexpected error occurred: "
          ++ int_limit_error default_interpreter (length key).
Proof.
  apply (proj1 (main_failures_are_reported ascii_digits default_interpreter
                  (λ _, Ok abc_items) long_key_endpoint (text "B") (text "P")
                  (text "fintech") (text "key") (text "model") 12)).
  vm_compute. reflexivity.
Defined.

(** ** The number of headlines in the prompt *)

Lemma scrape_google_news_length (nd : N → bool)
    (get_feed : str → result (list item)) (industry_keyword : str)
    (max_headlines : Z) (headlines : list str) :
  (0 ≤ max_headlines)%Z →
  scrape_google_news nd get_feed industry_keyword max_headlines = Ok headlines →
  (Z.of_nat (length headlines) ≤ max_headlines)%Z.
Proof.
  intros Hmax. unfold scrape_google_news, try_except.
  destruct (get_feed _) as [items|e]; simpl; [| by destruct (exn_class e)].
  intros [= <-]. rewrite collect_headlines_eq. simpl. unfold slice_to.
  destruct (Z.leb_spec 0 max_headlines); [| lia].
  rewrite length_fmap.
  pose proof (length_filter (λ t : str, t ≠ [])
                (omap item_title (take (Z.to_nat max_headlines) items))).
  pose proof (length_omap_le item_title (take (Z.to_nat max_headlines) items)).
  pose proof (length_take_le items (Z.to_nat max_headlines)).
  rewrite length_take in *. lia.
Qed.

(** X21. With a bound of three or more, as the slider of the form gives,
    the prompt that [main] sends has at least one headline and at most the
    bound: the stand-ins are three, and the fetcher never exceeds the
    bound. *)
Theorem main_headline_count (nd : N → bool) (py : interpreter)
    (get_feed : str → result (list item))
    (create : str → str → str → result chat_response)
    (bio recent_post industry api_key model : str) (max_headlines : Z)
    (shown : screen) (headlines : list str) :
  (3 ≤ max_headlines)%Z →
  main nd py get_feed create bio recent_post industry api_key model
    max_headlines = shown →
  (∃ posts tabs, shown = Calendar headlines posts tabs)
  ∨ (∃ generated_content, shown = Raw_output headlines generated_content) →
  (1 ≤ Z.of_nat (length headlines) ≤ max_headlines)%Z.
Proof.
  unfold main. intros Hmax Hmain Hshown.
  destruct (negb _); [destruct Hshown as [(? & ? & ->)|[? ->]]; discriminate |].
  assert (Hhs : ∃ scraped,
            scrape_google_news nd get_feed industry max_headlines = Ok scraped
            ∧ headlines = if bool_decide (scraped = [])
                          then fallback_headlines industry else scraped).
  { destruct (main_try_cases nd py get_feed create bio recent_post industry
                api_key model max_headlines)
      as [(e & _ & Htry)
         |(scraped & hs & Hscrape & Hhs &
           [(e & _ & Htry)
           |(g & posts & _ & _ &
             [[_ Htry]|[(_ & _ & sorted & tabs & Htry & _)|(_ & key & limit & _ & _ & _ & Htry)]])])];
      rewrite Htry in Hmain.
    - destruct (exn_class e), Hshown as [(? & ? & ->)|[? ->]]; discriminate.
    - destruct (exn_class e), Hshown as [(? & ? & ->)|[? ->]]; discriminate.
    - exists scraped. split; [done |].
      destruct Hshown as [(? & ? & ->)|[? ->]]; congruence.
    - exists scraped. split; [done |].
      destruct Hshown as [(? & ? & ->)|[? ->]]; congruence.
    - destruct Hshown as [(? & ? & ->)|[? ->]]; discriminate. }
  destruct Hhs as (scraped & Hscrape & ->). clear Hmain Hshown.
  apply scrape_google_news_length in Hscrape; [| lia].
  destruct (bool_decide_reflect (scraped = [])) as [Hnil|Hne].
  - simpl. lia.
  - destruct scraped; [done |]. simpl in *. lia.
Qed.

Lemma main_headline_count_witness :
  (1 ≤ Z.of_nat (length [text "A"; text "B"; text "C"]) ≤ 12)%Z.
Proof.
  apply (main_headline_count ascii_digits default_interpreter
           (λ _, Ok abc_items) two_days_endpoint
           (text "B") (text "P") (text "fintech") (text "key") (text "model") 12
           (Calendar [text "A"; text "B"; text "C"] (calendar_of two_entries)
              [ Tab (text "Day 1") (text "1") (text "Hello");
                Tab (text "Day 2") (text "2") (text "World") ])).
  - lia.
  - vm_compute. reflexivity.
  - left. by eexists _, _.
Defined.

(** ** Runs of [main] *)

(** The raw output, and the message about required fields. *)
Example main_raw_output :
  main ascii_digits default_interpreter empty_feed plain_endpoint
    (text "B") (text "P") (text "fintech") (text "key") (text "model") 12
  = Raw_output (fallback_headlines (text "fintech")) (text "no headings here").
Proof. vm_compute. reflexivity. Qed.

Example main_missing_key :
  main ascii_digits default_interpreter empty_feed plain_endpoint
    (text "B") (text "P") (text "fintech") [] (text "model") 12
  = Missing_fields.
Proof. vm_compute. reflexivity. Qed.

(** A reply with the days 10 down to 1: seven tabs, for the days 1 to 7. *)
Example main_seven_tabs :
  main ascii_digits default_interpreter (λ _, Ok abc_items) ten_days_endpoint
    (text "B") (text "P") (text "fintech") (text "key") (text "model") 12
  = Calendar [text "A"; text "B"; text "C"] (calendar_of ten_entries)
      [ Tab (text "Day 1") (text "1") (text "a");
        Tab (text "Day 2") (text "2") (text "b");
        Tab (text "Day 3") (text "3") (text "c");
        Tab (text "Day 4") (text "4") (text "d");
        Tab (text "Day 5") (text "5") (text "e");
        Tab (text "Day 6") (text "6") (text "f");
        Tab (text "Day 7") (text "7") (text "g") ].
Proof. vm_compute. reflexivity. Qed.

(** A reply whose only marker has 4301 digits: the message for unexpected
    errors. *)
Example main_long_key :
  main ascii_digits default_interpreter (λ _, Ok abc_items) long_key_endpoint
    (text "B") (text "P") (text "fintech") (text "key") (text "model") 12
  = Unexpected_error
      (text "⚠️ An unexpected error occurred: Exceeds the limit (4300 digits) for integer string conversion: value has 4301 digits; use sys.set_int_max_str_digits() to increase the limit").
Proof. vm_compute. reflexivity. Qed.
